(** * Batch gradient descent on the mean squared error

    A shallow embedding of the code cell of
    [gradient_descent/gradient_descent.ipynb]: the allocation of the
    trajectory buffer [theta_ev], the [for iteration in range(n_iterations)]
    loop with its two [itemset] writes, the [gradients] expression and the
    [theta] update.  The names the cell reads, [N], [n_iterations], [Xb],
    [y], [gamma] and [theta], are the inputs.

    Arrays are numpy's two-dimensional [ndarray]s, held in a store of array
    objects addressed by identity, so that the in-place [itemset] and the
    rebinding of [theta] are told apart.  numpy's exceptions are results.
    The scalar arithmetic is a parameter: the statements that do not depend
    on the laws of arithmetic hold for binary64 floats as well as for exact
    rationals and reals.

    The cell is written for two parameters: the buffer has two rows and each
    iteration reads [theta[0]] and [theta[1]].  The statements say what this
    gives for other numbers of parameters as well.

    The statements around the loop are embedded too: the generation of the
    data from numpy's random generator, which is an interface here, the
    seeded initial [theta], and the values the cell hands to [plt.plot] and
    prints after the loop. *)

From Stdlib Require Import ZArith List Lia QArith Qcanon Reals Lra Floats.
From stdpp Require Import base list.

(** ** Scalars *)

(** The element type of the arrays, with the operations the cell uses. *)
Class Scalar (S : Type) := {
  s_zero : S;
  s_one : S;
  s_add : S -> S -> S;
  s_sub : S -> S -> S;
  s_mul : S -> S -> S;
  s_div : S -> S -> S;
  (** conversion of a Python [int] *)
  s_of_int : Z -> S
}.

(** Exact rational arithmetic, in canonical form. *)
#[export] Instance Qc_scalar : Scalar Qc := {|
  s_zero := Q2Qc 0;
  s_one := Q2Qc 1;
  s_add := Qcplus;
  s_sub := Qcminus;
  s_mul := Qcmult;
  s_div := Qcdiv;
  s_of_int := fun z => Q2Qc (inject_Z z)
|}.

(** Real arithmetic: exact, with no rounding, overflow or NaN.  numpy
    computes in binary64; the reals are the arithmetic of the statements that
    say so, and of no other. *)
#[export] Instance R_scalar : Scalar R := {|
  s_zero := 0%R;
  s_one := 1%R;
  s_add := Rplus;
  s_sub := Rminus;
  s_mul := Rmult;
  s_div := Rdiv;
  s_of_int := IZR
|}.

(** Conversion of an integer of magnitude below [2^63] to binary64, rounded
    to nearest.  It is exact up to [2^53]; there the quotient of two
    conversions is Python's quotient of the integers, rounded once. *)
Definition float_of_int (z : Z) : float :=
  if (z <? 0)%Z then PrimFloat.opp (PrimFloat.of_uint63 (Uint63.of_Z (- z)))
  else PrimFloat.of_uint63 (Uint63.of_Z z).

(** IEEE 754 binary64, numpy's [float64]. *)
#[export] Instance float_scalar : Scalar float := {|
  s_zero := PrimFloat.zero;
  s_one := PrimFloat.one;
  s_add := PrimFloat.add;
  s_sub := PrimFloat.sub;
  s_mul := PrimFloat.mul;
  s_div := PrimFloat.div;
  s_of_int := float_of_int
|}.

(** ** Exceptions and results *)

(** The reasons for which numpy raises [ValueError] in this cell. *)
Inductive value_error : Set :=
  | negative_dimensions      (* negative dimensions are not allowed *)
  | shapes_not_aligned       (* dot: shapes (a,b) and (c,d) not aligned *)
  | operands_not_broadcast   (* operands could not be broadcast together *)
  | sequence_as_element.     (* setting an array element with a sequence *)

Inductive exn : Set :=
  | ValueError (why : value_error)
  | IndexError
  | ZeroDivisionError
  | NameError.               (* a name bound to no array object *)

Inductive res (A : Type) : Type :=
  | Ok (a : A)
  | Raise (e : exn).
Arguments Ok {A} a.
Arguments Raise {A} e.

#[export] Instance res_ret : MRet res := fun A a => Ok a.
#[export] Instance res_bind : MBind res := fun A B f m =>
  match m with
  | Ok a => f a
  | Raise e => Raise e
  end.

(** ** Arrays *)

(** A two-dimensional array in C order: the list of its rows.  An array
    without rows has no columns in this representation; the arrays of the
    cell have at least one row. *)
Abbreviation ndarray S := (list (list S)) (only parsing).

Section Arrays.
Context {S : Type} `{Scalar S}.

Definition nrows (a : ndarray S) : nat := length a.

Definition ncols (a : ndarray S) : nat :=
  match a with
  | [] => 0
  | r :: _ => length r
  end.

(** Every row has the length the shape says. *)
Definition wf_array (a : ndarray S) : Prop :=
  Forall (fun r => length r = ncols a) a.

Definition has_shape (a : ndarray S) (r c : nat) : Prop :=
  wf_array a /\ nrows a = r /\ ncols a = c.

Definition item (a : ndarray S) (i j : nat) : S :=
  nth j (nth i a []) s_zero.

Definition tabulate (r c : nat) (f : nat -> nat -> S) : ndarray S :=
  map (fun i => map (f i) (seq 0 c)) (seq 0 r).

(** [a.T] *)
Definition transpose (a : ndarray S) : ndarray S :=
  tabulate (ncols a) (nrows a) (fun j i => item a i j).

Definition column (a : ndarray S) (j : nat) : list S :=
  map (fun r => nth j r s_zero) a.

(** Sum of products, accumulated from the left.  numpy leaves the order of
    the additions to its BLAS; the order matters in binary64 only, and only
    for the last bits of the sum. *)
Definition dotp (u v : list S) : S :=
  fold_left s_add (zip_with s_mul u v) s_zero.

(** [a.dot(b)] *)
Definition np_dot (a b : ndarray S) : res (ndarray S) :=
  if decide (ncols a = nrows b) then
    Ok (map (fun row => map (fun j => dotp row (column b j)) (seq 0 (ncols b))) a)
  else Raise (ValueError shapes_not_aligned).

(** Broadcasting of one axis: equal lengths, or one of them is 1. *)
Definition broadcast (m n : nat) : option nat :=
  if decide (m = n) then Some m
  else if decide (m = 1) then Some n
  else if decide (n = 1) then Some m
  else None.

(** The index read on an axis of length [dim]: a stretched axis reads 0. *)
Definition bidx (dim i : nat) : nat := if decide (dim = 1) then 0 else i.

(** [a - b] *)
Definition np_sub (a b : ndarray S) : res (ndarray S) :=
  match broadcast (nrows a) (nrows b), broadcast (ncols a) (ncols b) with
  | Some r, Some c =>
      Ok (tabulate r c (fun i j =>
            s_sub (item a (bidx (nrows a) i) (bidx (ncols a) j))
                  (item b (bidx (nrows b) i) (bidx (ncols b) j))))
  | _, _ => Raise (ValueError operands_not_broadcast)
  end.

(** [c * a] for a scalar [c] *)
Definition np_scale (c : S) (a : ndarray S) : ndarray S :=
  map (map (s_mul c)) a.

(** [np.ones((r, c))] *)
Definition np_ones (r c : Z) : res (ndarray S) :=
  if decide (0 <= r /\ 0 <= c)%Z then
    Ok (replicate (Z.to_nat r) (replicate (Z.to_nat c) s_one))
  else Raise (ValueError negative_dimensions).

(** [a[i]] for a non-negative [i]: the row, a one-dimensional array *)
Definition getitem (a : ndarray S) (i : nat) : res (list S) :=
  match a !! i with
  | Some r => Ok r
  | None => Raise IndexError
  end.

(** [a.itemset((r, c), v)]: the index is checked first, then [v] is
    converted to a scalar, which needs an array of size one. *)
Definition itemset (a : ndarray S) (r c : nat) (v : list S) : res (ndarray S) :=
  if decide (r < nrows a /\ c < ncols a) then
    match v with
    | [x] => Ok (alter (fun row => <[c := x]> row) r a)
    | _ => Raise (ValueError sequence_as_element)
    end
  else Raise IndexError.

(** [a/b] on Python integers: true division, which raises on a zero divisor *)
Definition py_div (a b : Z) : res S :=
  if decide (b = 0%Z) then Raise ZeroDivisionError
  else Ok (s_div (s_of_int a) (s_of_int b)).

End Arrays.

(** ** The store of array objects *)

(** An array object is addressed by its identity; a name holds an identity. *)
Abbreviation loc := nat (only parsing).

Abbreviation store S := (list (ndarray S)) (only parsing).

(** Computations of the cell: they read and change the store and may raise.
    The store survives an exception. *)
Definition M (S A : Type) : Type := store S -> store S * res A.

#[export] Instance M_ret {S} : MRet (M S) := fun A a h => (h, Ok a).
#[export] Instance M_bind {S} : MBind (M S) := fun A B f m h =>
  match m h with
  | (h', Ok a) => f a h'
  | (h', Raise e) => (h', Raise e)
  end.

Section Cell.
Context {S : Type} `{Scalar S}.

Definition lift {A} (r : res A) : M S A := fun h => (h, r).

(** The array a name refers to. *)
Definition load (l : loc) : M S (ndarray S) := fun h =>
  (h, match h !! l with
      | Some a => Ok a
      | None => Raise NameError
      end).

(** A new array object. *)
Definition alloc (a : ndarray S) : M S loc := fun h => (h ++ [a], Ok (length h)).

(** A change of an array object in place. *)
Definition write (l : loc) (a : ndarray S) : M S unit := fun h => (<[l := a]> h, Ok tt).

(** [2/N * Xb.T.dot(Xb.dot(theta) - y)] *)
Definition gradients_expr (N : Z) (Xb theta y : ndarray S) : res (ndarray S) :=
  c ← py_div 2 N;
  a ← np_dot Xb theta;
  r ← np_sub a y;
  g ← np_dot (transpose Xb) r;
  mret (np_scale c g).

(** [theta - gamma*gradients] *)
Definition update_expr (gamma : S) (theta gradients : ndarray S) : res (ndarray S) :=
  np_sub theta (np_scale gamma gradients).

(** [theta_ev.itemset((r, iteration), theta[r])] *)
Definition record (theta_ev : loc) (r iteration : nat) (theta : loc) : M S unit :=
  th ← load theta;
  v ← lift (getitem th r);
  ev ← load theta_ev;
  ev' ← lift (itemset ev r iteration v);
  write theta_ev ev'.

(** The body of the loop.  The two assignments bind their names to new
    array objects; the body returns the array [theta] is bound to at its end. *)
Definition body (N : Z) (gamma : S) (Xb y theta_ev : loc) (iteration : nat) (theta : loc)
  : M S loc :=
  (* theta_ev.itemset((0,iteration), theta[0]) *)
  record theta_ev 0 iteration theta;;
  (* theta_ev.itemset((1,iteration), theta[1]) *)
  record theta_ev 1 iteration theta;;
  (* gradients = 2/N * Xb.T.dot(Xb.dot(theta) - y) *)
  X ← load Xb;
  th ← load theta;
  yv ← load y;
  g ← lift (gradients_expr N X th yv);
  gradients ← alloc g;
  (* theta = theta - gamma*gradients *)
  th ← load theta;
  gv ← load gradients;
  t ← lift (update_expr gamma th gv);
  alloc t.

(** [for iteration in range(...)] over the given indices *)
Fixpoint for_range (N : Z) (gamma : S) (Xb y theta_ev : loc) (its : list nat) (theta : loc)
  : M S loc :=
  match its with
  | [] => mret theta
  | iteration :: rest =>
      theta' ← body N gamma Xb y theta_ev iteration theta;
      for_range N gamma Xb y theta_ev rest theta'
  end.

(** [range(n)] *)
Definition range (n : Z) : list nat := seq 0 (Z.to_nat n).

(** The cell from [theta_ev = np.ones((2,n_iterations))] to the end of the
    loop, as a function of the names it reads.  It returns the final [theta]
    and [theta_ev]. *)
Definition gradient_descent (N n_iterations : Z) (gamma : S) (Xb y theta0 : loc)
  : M S (loc * loc) :=
  ev ← lift (np_ones 2 n_iterations);
  theta_ev ← alloc ev;
  theta ← for_range N gamma Xb y theta_ev (range n_iterations) theta0;
  mret (theta, theta_ev).

(** The cell with [N] the number of rows of [Xb]: the cell sets [N] to the
    number of samples and builds [Xb] with one row per sample. *)
Definition run (Xb y theta0 : loc) (gamma : S) (n_iterations : Z) : M S (loc * loc) :=
  X ← load Xb;
  gradient_descent (Z.of_nat (nrows X)) n_iterations gamma Xb y theta0.

End Cell.

(** ** The cell on array values *)

Section Values.
Context {S : Type} `{Scalar S}.

(** The two [itemset] writes of an iteration. *)
Definition snapshot (ev : ndarray S) (iteration : nat) (theta : ndarray S)
  : res (ndarray S) :=
  v0 ← getitem theta 0;
  ev0 ← itemset ev 0 iteration v0;
  v1 ← getitem theta 1;
  itemset ev0 1 iteration v1.

(** The value [theta] is rebound to by an iteration. *)
Definition step (N : Z) (gamma : S) (Xb y theta : ndarray S) : res (ndarray S) :=
  g ← gradients_expr N Xb theta y;
  update_expr gamma theta g.

(** The values of [theta] and [theta_ev] after the iterations [its]. *)
Fixpoint iterate (N : Z) (gamma : S) (Xb y : ndarray S) (its : list nat)
    (theta ev : ndarray S) : res (ndarray S * ndarray S) :=
  match its with
  | [] => Ok (theta, ev)
  | i :: rest =>
      ev' ← snapshot ev i theta;
      theta' ← step N gamma Xb y theta;
      iterate N gamma Xb y rest theta' ev'
  end.

Definition cell_value (N n : Z) (gamma : S) (Xb y theta0 : ndarray S)
  : res (ndarray S * ndarray S) :=
  ev ← np_ones 2 n;
  iterate N gamma Xb y (range n) theta0 ev.

(** What the caller sees of an outcome: the exception, or the arrays the
    two returned names refer to. *)
Definition observe (out : store S * res (loc * loc)) : res (ndarray S * ndarray S) :=
  match out with
  | (h, Ok (theta, theta_ev)) =>
      match h !! theta, h !! theta_ev with
      | Some T, Some E => Ok (T, E)
      | _, _ => Raise NameError
      end
  | (_, Raise e) => Raise e
  end.

(** The names of the cell refer to these arrays, and the buffer is an
    object of its own. *)
Record cell_store (h : store S) (Xb y theta ev : loc) (X Y T E : ndarray S) : Prop := {
  cs_Xb : h !! Xb = Some X;
  cs_y : h !! y = Some Y;
  cs_theta : h !! theta = Some T;
  cs_ev : h !! ev = Some E;
  cs_ev_Xb : ev <> Xb;
  cs_ev_y : ev <> y;
  cs_ev_theta : ev <> theta
}.

End Values.

(** ** The vocabulary of the statements *)

Section Vocabulary.
Context {S : Type} `{Scalar S}.

(** Among the array objects that exist when [m] starts, [m] changes at most
    [ev]; no object disappears. *)
Definition changes_only {A} (ev : loc) (m : M S A) : Prop :=
  forall h h' r, m h = (h', r) ->
    length h <= length h' /\
    forall l, l <> ev -> l < length h -> h' !! l = h !! l.

(** A vector as an array of shape (n, 1), and back. *)
Definition col (v : list S) : ndarray S := map (fun x => [x]) v.
Definition vec (a : ndarray S) : list S := column a 0.

(** [X·θ] *)
Definition mat_vec (X : ndarray S) (theta : list S) : list S :=
  map (fun row => dotp row theta) X.

(** [Xᵀ·r] *)
Definition matT_vec (X : ndarray S) (r : list S) : list S :=
  map (fun j => dotp (column X j) r) (seq 0 (ncols X)).

(** The residual [r = X·θ − y]. *)
Definition residual (X : ndarray S) (theta y : list S) : list S :=
  zip_with s_sub (mat_vec X theta) y.

(** The gradient of the mean squared error, [g = (2/N)·Xᵀ·r], for the [N]
    rows of [X]. *)
Definition mse_gradient (X : ndarray S) (theta y : list S) : list S :=
  map (s_mul (s_div (s_of_int 2) (s_of_int (Z.of_nat (length X)))))
      (matT_vec X (residual X theta y)).

(** One step, [θ − γ·g]. *)
Definition mse_step (gamma : S) (X : ndarray S) (y theta : list S) : list S :=
  zip_with s_sub theta (map (s_mul gamma) (mse_gradient X theta y)).

(** The snapshots held by the buffer [theta_ev]: its columns, in order. *)
Definition trajectory (theta_ev : ndarray S) : list (list S) := transpose theta_ev.

(** The names [Xb], [y] and [theta0] refer to arrays of shapes (N, p),
    (N, 1) and (p, 1). *)
Record valid_call (h : store S) (Xb y theta0 : loc) (X Y T0 : ndarray S) (N p : nat)
  : Prop := {
  vc_Xb : h !! Xb = Some X;
  vc_y : h !! y = Some Y;
  vc_theta0 : h !! theta0 = Some T0;
  vc_X : has_shape X N p;
  vc_Y : has_shape Y N 1;
  vc_T0 : has_shape T0 p 1
}.

(** The parameter vector after [k] closed-form steps. *)
Definition theta_k (gamma : S) (X : ndarray S) (y theta0 : list S) (k : nat) : list S :=
  Nat.iter k (mse_step gamma X y) theta0.




End Vocabulary.


(** Arithmetic in which a step of size zero is the identity. *)
Class ExactScalar (S : Type) `{Scalar S} : Prop := {
  mul_zero_l : forall x : S, s_mul s_zero x = s_zero;
  sub_zero_r : forall x : S, s_sub x s_zero = x
}.

(** The update with a step of size zero leaves the entry [t] of [theta] as
    it is, for the entry [g] of the gradient: [t − 0·g = t]. *)
Definition kept_by_zero_step {S : Type} `{Scalar S} (t g : S) : Prop :=
  s_sub t (s_mul s_zero g) = t.

(** ** The statements around the loop *)

(** What the statements before and after the loop raise: the exceptions of
    the loop, and numpy's [ValueError] for two more reasons. *)
Inductive cell_exn : Set :=
  | Exn (e : exn)
  | ValueError_concatenate   (* all the input array dimensions except for the
                                concatenation axis must match exactly *)
  | ValueError_reshape.      (* cannot reshape array of size n into shape (r,c) *)

Inductive outcome (A : Type) : Type :=
  | Returns (a : A)
  | Raises (e : cell_exn).
Arguments Returns {A} a.
Arguments Raises {A} e.

#[export] Instance outcome_ret : MRet outcome := fun A a => Returns a.
#[export] Instance outcome_bind : MBind outcome := fun A B f m =>
  match m with
  | Returns a => f a
  | Raises e => Raises e
  end.

Definition of_res {A} (r : res A) : outcome A :=
  match r with
  | Ok a => Returns a
  | Raise e => Raises (Exn e)
  end.

(** numpy's global random generator: its state, a draw of [rand] (uniform on
    [0, 1)), a draw of [randn] (standard normal), and the state that
    [seed] sets. *)
Class Generator (S G : Type) := {
  uniform : G -> S * G;
  normal : G -> S * G;
  seed : Z -> G
}.

(** Computations that draw from the generator and may raise. *)
Definition Draw (G A : Type) : Type := G -> G * outcome A.

#[export] Instance Draw_ret {G} : MRet (Draw G) := fun A a g => (g, Returns a).
#[export] Instance Draw_bind {G} : MBind (Draw G) := fun A B f m g =>
  match m g with
  | (g', Returns a) => f a g'
  | (g', Raises e) => (g', Raises e)
  end.

Section Data.
Context {S G : Type} `{Scalar S} `{Generator S G}.

Definition pure {A} (r : outcome A) : Draw G A := fun g => (g, r).

(** [k] successive draws. *)
Fixpoint draws (draw : G -> S * G) (k : nat) (g : G) : list S * G :=
  match k with
  | 0 => ([], g)
  | Datatypes.S k' =>
      let (x, g1) := draw g in
      let (l, g2) := draws draw k' g1 in
      (x :: l, g2)
  end.

(** An array of [r] rows of [c] draws, filled in C order. *)
Fixpoint draw_rows (draw : G -> S * G) (r c : nat) (g : G) : ndarray S * G :=
  match r with
  | 0 => ([], g)
  | Datatypes.S r' =>
      let (row, g1) := draws draw c g in
      let (rows, g2) := draw_rows draw r' c g1 in
      (row :: rows, g2)
  end.

Definition random_array (draw : G -> S * G) (r c : Z) : Draw G (ndarray S) := fun g =>
  if decide (0 <= r /\ 0 <= c)%Z then
    let (a, g') := draw_rows draw (Z.to_nat r) (Z.to_nat c) g in (g', Returns a)
  else (g, Raises (Exn (ValueError negative_dimensions))).

(** [np.random.rand(r, c)] *)
Definition np_random_rand (r c : Z) : Draw G (ndarray S) := random_array uniform r c.

(** [np.random.randn(r, c)] *)
Definition np_random_randn (r c : Z) : Draw G (ndarray S) := random_array normal r c.

(** [np.random.seed(s)] *)
Definition np_random_seed (s : Z) : Draw G unit := fun _ => (seed s, Returns tt).

(** [c + a] for a scalar [c] *)
Definition np_add_scalar (c : S) (a : ndarray S) : ndarray S :=
  map (map (s_add c)) a.

(** [a + b] *)
Definition np_add (a b : ndarray S) : res (ndarray S) :=
  match broadcast (nrows a) (nrows b), broadcast (ncols a) (ncols b) with
  | Some r, Some c =>
      Ok (tabulate r c (fun i j =>
            s_add (item a (bidx (nrows a) i) (bidx (ncols a) j))
                  (item b (bidx (nrows b) i) (bidx (ncols b) j))))
  | _, _ => Raise (ValueError operands_not_broadcast)
  end.

(** [np.c_[a, b]] on two-dimensional arrays: [b] to the right of [a]. *)
Definition np_c_ (a b : ndarray S) : outcome (ndarray S) :=
  if decide (nrows a = nrows b) then Returns (zip_with app a b)
  else Raises ValueError_concatenate.

(** The arrays the cell generates. *)
Record dataset : Type := {
  data_x : ndarray S;
  data_eta : ndarray S;
  data_y : ndarray S;
  data_Xb : ndarray S
}.

(** The cell from [x = 2*np.random.rand(N,1)] to [Xb = np.c_[...]], as a
    function of [N]. *)
Definition generate (N : Z) : Draw G dataset :=
  (* x = 2*np.random.rand(N,1) *)
  u ← np_random_rand N 1;
  let x := np_scale (s_of_int 2) u in
  (* eta = np.random.rand(N,1) *)
  eta ← np_random_rand N 1;
  (* y = 4 + 3*x + eta *)
  y ← pure (of_res (np_add (np_add_scalar (s_of_int 4) (np_scale (s_of_int 3) x)) eta));
  (* Xb = np.c_[np.ones((100,1)), x] *)
  ones ← pure (of_res (np_ones 100 1));
  Xb ← pure (np_c_ ones x);
  mret {| data_x := x; data_eta := eta; data_y := y; data_Xb := Xb |}.

(** [np.random.seed(0)] and [theta = np.random.randn(2,1)] *)
Definition initial_theta : Draw G (ndarray S) :=
  np_random_seed 0;;
  np_random_randn 2 1.

(** The abscissae and the targets from the draws of [rand]:
    [x = 2*u] and [y = 4 + 3*x + eta], entry by entry. *)
Definition x_of (us : list S) : list S := map (s_mul (s_of_int 2)) us.

Definition y_of (xs es : list S) : list S :=
  zip_with s_add (map (s_add (s_of_int 4)) (map (s_mul (s_of_int 3)) xs)) es.

End Data.

Section Report.
Context {S : Type} `{Scalar S}.

(** [a[i, j]] for non-negative [i] and [j] *)
Definition getitem2 (a : ndarray S) (i j : nat) : res S :=
  if decide (i < nrows a /\ j < ncols a) then Ok (item a i j) else Raise IndexError.

(** The position a bound of a slice stands for on an axis of length [len]:
    a negative bound counts from the end, and the position is clipped to the
    axis. *)
Definition slice_bound (len : nat) (i : Z) : nat :=
  Z.to_nat (Z.min (Z.of_nat len)
                  (Z.max 0 (if decide (i < 0)%Z then i + Z.of_nat len else i)%Z)).

(** [l[lo:hi]] *)
Definition py_slice {A} (lo hi : Z) (l : list A) : list A :=
  drop (slice_bound (length l) lo) (take (slice_bound (length l) hi) l).

(** [a[i, lo:hi]] for a non-negative [i]: a one-dimensional array *)
Definition getitem_row_slice (a : ndarray S) (i : nat) (lo hi : Z) : res (list S) :=
  r ← getitem a i;
  mret (py_slice lo hi r).

(** [a[lo:hi, j]] for a non-negative [j]: a one-dimensional array *)
Definition getitem_slice_col (a : ndarray S) (lo hi : Z) (j : nat) : res (list S) :=
  if decide (j < ncols a) then Ok (column (py_slice lo hi a) j) else Raise IndexError.

(** [a.dot(c)] for a scalar [c] *)
Definition np_dot_scalar (a : ndarray S) (c : S) : ndarray S :=
  map (map (fun x => s_mul x c)) a.

(** [a.reshape(r, c)], in C order *)
Definition np_reshape (a : ndarray S) (r c : nat) : outcome (ndarray S) :=
  if decide (length (concat a) = r * c) then
    Returns (tabulate r c (fun i j => nth (i * c + j) (concat a) s_zero))
  else Raises ValueError_reshape.

(** What a call of [plt.plot] is given as x or y data. *)
Inductive plot_data : Type :=
  | an_int (z : Z)
  | an_element (x : S)
  | a_range (t : list nat)
  | an_array1 (v : list S)
  | an_array2 (a : ndarray S).

(** The number of points along the first axis. *)
Definition points (d : plot_data) : nat :=
  match d with
  | an_int _ | an_element _ => 1
  | a_range t => length t
  | an_array1 v => length v
  | an_array2 a => nrows a
  end.

(** The x and y data of the six calls of [plt.plot], in the order of the
    calls. *)
Definition figure_data (n_iterations : Z) (theta_ev : ndarray S)
  : res (list (plot_data * plot_data)) :=
  (* t = range(n_iterations) *)
  let t := range n_iterations in
  (* plt.plot(t, theta_ev[0,0:n_iterations], 'o', ...) *)
  e0 ← getitem_row_slice theta_ev 0 0 n_iterations;
  (* plt.plot(t, theta_ev[1,0:n_iterations], 'o', ...) *)
  e1 ← getitem_row_slice theta_ev 1 0 n_iterations;
  (* plt.plot(t, np.ones((n_iterations,1)).dot(4), '--', ...) *)
  o4 ← np_ones n_iterations 1;
  (* plt.plot(t, np.ones((n_iterations,1)).dot(3), '--', ...) *)
  o3 ← np_ones n_iterations 1;
  (* plt.plot(0, theta_ev[0,0], '*', ...) *)
  g0 ← getitem2 theta_ev 0 0;
  (* plt.plot(0, theta_ev[1,0], 'k*', ...) *)
  g1 ← getitem2 theta_ev 1 0;
  mret [(a_range t, an_array1 e0);
        (a_range t, an_array1 e1);
        (a_range t, an_array2 (np_dot_scalar o4 (s_of_int 4)));
        (a_range t, an_array2 (np_dot_scalar o3 (s_of_int 3)));
        (an_int 0, an_element g0);
        (an_int 0, an_element g1)].

(** [theta_ev[0:2,0]], the initial guess the cell prints *)
Definition initial_guess (theta_ev : ndarray S) : res (list S) :=
  getitem_slice_col theta_ev 0 2 0.

(** [theta.reshape(1,2)[0].tolist()], the final estimate the cell prints *)
Definition final_estimate (theta : ndarray S) : outcome (list S) :=
  a ← np_reshape theta 1 2;
  of_res (getitem a 0).

End Report.

(** ** Concrete inputs *)

(** The hand-computed case: three samples, two parameters, exact rationals. *)
Definition qc (n : Z) (d : positive) : Qc := Q2Qc (n # d).

Definition X3 : ndarray Qc := [[qc 1 1; qc 0 1]; [qc 1 1; qc 1 1]; [qc 1 1; qc 2 1]].
Definition y3 : ndarray Qc := [[qc 1 1]; [qc 2 1]; [qc 3 1]].
Definition t3 : ndarray Qc := [[qc 0 1]; [qc 0 1]].

(** A store in which [Xb], [y] and [theta] are the objects 0, 1 and 2. *)
Definition h3 : store Qc := [X3; y3; t3].

(** The rationals an array of canonical rationals holds. *)
Definition rationals (a : ndarray Qc) : list (list Q) := map (map this) a.

(** A second store with the same three arrays at other places. *)
Definition h3' : store Qc := [t3; [[qc 7 1]]; y3; X3].

(** One sample, one parameter. *)
Definition X1 : ndarray Qc := [[qc 1 1]].
Definition y1 : ndarray Qc := [[qc 1 1]].
Definition t1 : ndarray Qc := [[qc 0 1]].
Definition h1 : store Qc := [X1; y1; t1].

(** A design matrix of three columns against two parameters. *)
Definition X13 : ndarray Qc := [[qc 1 1; qc 1 1; qc 1 1]].
Definition h13 : store Qc := [X13; y1; t3].

(** Two samples, three parameters. *)
Definition X23 : ndarray Qc := [[qc 1 1; qc 0 1; qc 2 1]; [qc 1 1; qc 1 1; qc 0 1]].
Definition y2 : ndarray Qc := [[qc 1 1]; [qc 2 1]].
Definition t4 : ndarray Qc := [[qc 5 1]; [qc 6 1]; [qc 7 1]].
Definition h23 : store Qc := [X23; y2; t4].

(** Three samples against a target of a single row. *)
Definition h31 : store Qc := [X3; y1; t3].

(** The hand-computed case in binary64. *)
Definition X3f : ndarray float := [[1; 0]; [1; 1]; [1; 2]]%float.
Definition y3f : ndarray float := [[1]; [2]; [3]]%float.
Definition t3f : ndarray float := [[0]; [0]]%float.
Definition h3f : store float := [X3f; y3f; t3f].

(** Two binary64 numbers within [2^-50] of each other. *)
Definition close (a b : float) : bool :=
  PrimFloat.ltb (PrimFloat.abs (PrimFloat.sub a b)) 0x1p-50%float.

(** Binary64 inputs on which [Xb.dot(theta)] overflows. *)
Definition Xf : ndarray float := [[1; 0x1p1023]]%float.
Definition yf : ndarray float := [[0]]%float.
Definition tf : ndarray float := [[0]; [4]]%float.
Definition hf : store float := [Xf; yf; tf].


(** A counter as generator state: draw number [k] of [rand] is [1/(k+2)],
    draw number [k] of [randn] is [k - 1/2], and [seed] sets the counter. *)
#[export] Instance counter_generator : Generator Qc nat := {|
  uniform := fun k => (qc 1 (Pos.of_nat (k + 2)), Datatypes.S k);
  normal := fun k => (qc (2 * Z.of_nat k - 1) 2, Datatypes.S k);
  seed := fun s => Z.to_nat s
|}.

(** No sample. *)
Definition h0 : store Qc := [[]; y3; t3].

(** A parameter array of two columns. *)
Definition t22 : ndarray Qc := [[qc 0 1; qc 0 1]; [qc 0 1; qc 0 1]].
Definition h22 : store Qc := [X3; y3; t22].

(** Targets of two columns. *)
Definition y32 : ndarray Qc := [[qc 1 1; qc 1 1]; [qc 2 1; qc 2 1]; [qc 3 1; qc 3 1]].
Definition h32 : store Qc := [X3; y32; t3].

(** One target for three samples, and the same target three times. *)
Definition hs : store Qc := [X3; [[qc 2 1]]; replicate 3 [qc 2 1]; t3].




(** ** What a computation leaves alone *)

Ltac unfold_monad :=
  unfold mbind, mret, M_bind, M_ret, res_bind, res_ret in *.

Section Frame.
Context {S : Type} `{Scalar S}.

Lemma changes_only_ret {A} ev (a : A) : changes_only ev (mret a : M S A).
Proof. intros h h' r [= <- <-]. split; [lia | done]. Qed.

Lemma changes_only_bind {A B} ev (m : M S A) (f : A -> M S B) :
  changes_only ev m -> (forall a, changes_only ev (f a)) ->
  changes_only ev (m ≫= f).
Proof.
  intros Hm Hf h h' r. unfold_monad.
  destruct (m h) as [h1 [a | e]] eqn:Em.
  - intros Ef. destruct (Hm _ _ _ Em) as [Hlen1 Hfr1].
    destruct (Hf a _ _ _ Ef) as [Hlen2 Hfr2]. split; [lia |].
    intros l Hne Hl. rewrite Hfr2 by lia. by apply Hfr1.
  - intros [= <- <-]. exact (Hm _ _ _ Em).
Qed.

Lemma changes_only_lift {A} ev (r : res A) : changes_only ev (lift r : M S A).
Proof. intros h h' r' [= <- <-]. split; [lia | done]. Qed.

Lemma changes_only_load ev l : changes_only (S:=S) ev (load l).
Proof. intros h h' r [= <- <-]. split; [lia | done]. Qed.

Lemma changes_only_alloc ev (a : ndarray S) : changes_only ev (alloc a).
Proof.
  intros h h' r [= <- <-]. rewrite length_app. split; [lia |].
  intros l _ Hl. by apply lookup_app_l.
Qed.

Lemma changes_only_write ev (a : ndarray S) : changes_only ev (write ev a).
Proof.
  intros h h' r [= <- <-]. rewrite length_insert. split; [lia |].
  intros l Hne _. by apply list_lookup_insert_ne.
Qed.

Lemma changes_only_body N gamma Xb y ev i theta :
  changes_only ev (body N gamma Xb y ev i theta).
Proof.
  unfold body.
  repeat (apply changes_only_bind; [| intros ?]);
    auto using changes_only_load, changes_only_lift, changes_only_alloc,
      changes_only_write.
Qed.

Lemma changes_only_for_range N gamma Xb y ev its theta :
  changes_only ev (for_range N gamma Xb y ev its theta).
Proof.
  revert theta. induction its as [| i its IH]; intros theta; simpl.
  - apply changes_only_ret.
  - apply changes_only_bind; [apply changes_only_body | intros ?; apply IH].
Qed.

(** The cell changes no array object that exists when it starts: its only
    write in place goes to the buffer it allocates itself. *)
Lemma gradient_descent_preserves N n gamma Xb y theta0 h h' r :
  gradient_descent N n gamma Xb y theta0 h = (h', r) ->
  length h <= length h' /\ forall l, l < length h -> h' !! l = h !! l.
Proof.
  unfold gradient_descent, lift, alloc. unfold_monad.
  destruct (np_ones 2 n) as [ev | e]; [| intros [= <- <-]; split; [lia | done]].
  destruct (for_range N gamma Xb y (length h) (range n) theta0 (h ++ [ev]))
    as [h1 r1] eqn:Efor.
  destruct (changes_only_for_range _ _ _ _ _ _ _ _ _ _ Efor) as [Hlen Hfr].
  rewrite length_app in Hlen. simpl in Hlen.
  intros Hr. assert (h' = h1) as -> by (destruct r1; congruence).
  split; [lia |]. intros l Hl.
  rewrite Hfr by (rewrite ?length_app; simpl; lia).
  by apply lookup_app_l.
Qed.

Lemma run_preserves Xb y theta0 gamma n h h' r :
  run Xb y theta0 gamma n h = (h', r) ->
  length h <= length h' /\ forall l, l < length h -> h' !! l = h !! l.
Proof.
  unfold run, load. unfold_monad.
  destruct (h !! Xb) as [X |]; [| intros [= <- <-]; split; [lia | done]].
  apply gradient_descent_preserves.
Qed.

End Frame.

(** ** The cell on array values and the cell on the store *)

Section Simulation.
Context {S : Type} `{Scalar S}.

Lemma bind_ok {A B} (m : M S A) (f : A -> M S B) h h1 a :
  m h = (h1, Ok a) -> (m ≫= f) h = f a h1.
Proof. intros Hm. unfold_monad. by rewrite Hm. Qed.

Lemma bind_raise {A B} (m : M S A) (f : A -> M S B) h h1 e :
  m h = (h1, Raise e) -> (m ≫= f) h = (h1, Raise e).
Proof. intros Hm. unfold_monad. by rewrite Hm. Qed.

Lemma bind_lift {A B} (r : res A) (f : A -> M S B) h :
  (lift r ≫= f) h = match r with
                    | Ok a => f a h
                    | Raise e => (h, Raise e)
                    end.
Proof. unfold lift. unfold_monad. by destruct r. Qed.

Lemma load_ok (h : store S) l a : h !! l = Some a -> load l h = (h, Ok a).
Proof. intros Hl. unfold load. by rewrite Hl. Qed.

Lemma bind_load {B} (f : ndarray S -> M S B) (h : store S) l a :
  h !! l = Some a -> (load l ≫= f) h = f a h.
Proof. intros Hl. apply bind_ok. by apply load_ok. Qed.

Lemma record_ok (h : store S) ev r i theta T E v E' :
  h !! theta = Some T -> h !! ev = Some E ->
  getitem T r = Ok v -> itemset E r i v = Ok E' ->
  record ev r i theta h = (<[ev := E']> h, Ok tt).
Proof.
  intros HT HE Hv HE'. unfold record.
  rewrite (bind_load _ _ _ _ HT), bind_lift, Hv.
  by rewrite (bind_load _ _ _ _ HE), bind_lift, HE'.
Qed.

Lemma record_raise_getitem (h : store S) ev r i theta T e :
  h !! theta = Some T -> getitem T r = Raise e ->
  record ev r i theta h = (h, Raise e).
Proof.
  intros HT Hv. unfold record.
  by rewrite (bind_load _ _ _ _ HT), bind_lift, Hv.
Qed.

Lemma record_raise_itemset (h : store S) ev r i theta T E v e :
  h !! theta = Some T -> h !! ev = Some E ->
  getitem T r = Ok v -> itemset E r i v = Raise e ->
  record ev r i theta h = (h, Raise e).
Proof.
  intros HT HE Hv HE'. unfold record.
  rewrite (bind_load _ _ _ _ HT), bind_lift, Hv.
  by rewrite (bind_load _ _ _ _ HE), bind_lift, HE'.
Qed.

Lemma body_spec (h : store S) N gamma Xb y theta ev i X Y T E :
  cell_store h Xb y theta ev X Y T E ->
  exists h' r, body N gamma Xb y ev i theta h = (h', r) /\
    match snapshot E i T with
    | Raise e => r = Raise e
    | Ok E' =>
        h' !! ev = Some E' /\
        match step N gamma X Y T with
        | Raise e => r = Raise e
        | Ok T' => exists theta', r = Ok theta' /\
                     cell_store h' Xb y theta' ev X Y T' E'
        end
    end.
Proof.
  intros [HX HY HT HE HneX HneY HneT].
  pose proof (lookup_lt_Some _ _ _ HE) as Hev.
  pose proof (lookup_lt_Some _ _ _ HT) as Hth.
  pose proof (lookup_lt_Some _ _ _ HX) as HXb.
  pose proof (lookup_lt_Some _ _ _ HY) as Hy.
  unfold body, snapshot.
  (* first write *)
  destruct (getitem T 0) as [v0 | e] eqn:Hv0; simpl.
  2: { eexists _, _. split; [| reflexivity].
       apply bind_raise. eapply record_raise_getitem; eauto. }
  destruct (itemset E 0 i v0) as [E0 | e] eqn:HE0; simpl.
  2: { eexists _, _. split; [| reflexivity].
       apply bind_raise. eapply record_raise_itemset; eauto. }
  rewrite (bind_ok _ _ _ _ _ (record_ok _ _ _ _ _ _ _ _ _ HT HE Hv0 HE0)).
  set (h1 := <[ev := E0]> h).
  assert (h1 !! theta = Some T) as HT1
    by (unfold h1; by rewrite list_lookup_insert_ne).
  assert (h1 !! ev = Some E0) as HE1 by (by apply list_lookup_insert_eq).
  (* second write *)
  destruct (getitem T 1) as [v1 | e] eqn:Hv1; simpl.
  2: { eexists _, _. split; [| reflexivity].
       apply bind_raise. eapply record_raise_getitem; eauto. }
  destruct (itemset E0 1 i v1) as [E1 | e] eqn:HE1'; simpl.
  2: { eexists _, _. split; [| reflexivity].
       apply bind_raise. eapply record_raise_itemset; eauto. }
  rewrite (bind_ok _ _ _ _ _ (record_ok _ _ _ _ _ _ _ _ _ HT1 HE1 Hv1 HE1')).
  unfold h1. rewrite list_insert_insert_eq. clear h1 HT1 HE1.
  set (h2 := <[ev := E1]> h).
  assert (length h2 = length h) as Hlen by apply length_insert.
  assert (h2 !! ev = Some E1) as HE2 by (by apply list_lookup_insert_eq).
  assert (forall l, l <> ev -> h2 !! l = h !! l) as Hfr
    by (intros l Hl; by apply list_lookup_insert_ne).
  (* the gradient *)
  rewrite (bind_load _ h2 Xb X) by (by rewrite Hfr).
  rewrite (bind_load _ h2 theta T) by (by rewrite Hfr).
  rewrite (bind_load _ h2 y Y) by (by rewrite Hfr).
  unfold step. rewrite bind_lift.
  destruct (gradients_expr N X T Y) as [G | e]; simpl.
  2: { eexists _, _. split; [reflexivity | by split]. }
  rewrite (bind_ok _ _ h2 (h2 ++ [G]) (length h2)) by done.
  (* the update *)
  rewrite (bind_load _ (h2 ++ [G]) theta T)
    by (rewrite lookup_app_l by lia; by rewrite Hfr).
  rewrite (bind_load _ (h2 ++ [G]) (length h2) G).
  2: { rewrite lookup_app_r by lia. by rewrite Nat.sub_diag. }
  rewrite bind_lift.
  destruct (update_expr gamma T G) as [T' | e]; simpl.
  2: { eexists _, _. split; [reflexivity |]. split; [| done].
       by rewrite lookup_app_l by lia. }
  eexists _, _. split; [reflexivity |].
  assert (length (h2 ++ [G]) = Datatypes.S (length h)) as Hlen'
    by (rewrite length_app; simpl; lia).
  split.
  { rewrite !lookup_app_l by lia. done. }
  exists (length (h2 ++ [G])). split; [done |].
  split; try lia.
  - rewrite !lookup_app_l by lia. by rewrite Hfr.
  - rewrite !lookup_app_l by lia. by rewrite Hfr.
  - rewrite lookup_app_r by lia. by rewrite Nat.sub_diag.
  - rewrite !lookup_app_l by lia. done.
Qed.

Lemma for_range_spec N gamma Xb y ev X Y its :
  forall (h : store S) theta T E,
  cell_store h Xb y theta ev X Y T E ->
  exists h' r, for_range N gamma Xb y ev its theta h = (h', r) /\
    match iterate N gamma X Y its T E with
    | Ok (T', E') => exists theta', r = Ok theta' /\
                       cell_store h' Xb y theta' ev X Y T' E'
    | Raise e => r = Raise e
    end.
Proof.
  induction its as [| i its IH]; intros h theta T E Hcs; simpl.
  - exists h, (Ok theta). split; [done |]. by exists theta.
  - destruct (body_spec h N gamma Xb y theta ev i X Y T E Hcs)
      as (h1 & r1 & Hbody & Hr1).
    destruct (snapshot E i T) as [E' | e]; simpl.
    2: { subst r1. exists h1, (Raise e). split; [| done]. by eapply bind_raise. }
    destruct Hr1 as [_ Hr1].
    destruct (step N gamma X Y T) as [T' | e]; simpl.
    2: { subst r1. exists h1, (Raise e). split; [| done]. by eapply bind_raise. }
    destruct Hr1 as (theta' & -> & Hcs').
    destruct (IH h1 theta' T' E' Hcs') as (h2 & r2 & Hfor & Hr2).
    exists h2, r2. split; [| done].
    by rewrite (bind_ok _ _ _ _ _ Hbody).
Qed.

(** The outcome of the cell, as the caller sees it, is a function of the
    values of its inputs. *)
Lemma gradient_descent_value N n gamma Xb y theta0 (h : store S) X Y T0 :
  h !! Xb = Some X -> h !! y = Some Y -> h !! theta0 = Some T0 ->
  observe (gradient_descent N n gamma Xb y theta0 h) = cell_value N n gamma X Y T0.
Proof.
  intros HX HY HT. unfold gradient_descent, cell_value.
  rewrite bind_lift. destruct (np_ones 2 n) as [E | e]; simpl; [| done].
  rewrite (bind_ok _ _ h (h ++ [E]) (length h)) by done.
  pose proof (lookup_lt_Some _ _ _ HX). pose proof (lookup_lt_Some _ _ _ HY).
  pose proof (lookup_lt_Some _ _ _ HT).
  assert (cell_store (h ++ [E]) Xb y theta0 (length h) X Y T0 E) as Hcs.
  { split; try lia; try (by rewrite lookup_app_l).
    rewrite lookup_app_r by lia. by rewrite Nat.sub_diag. }
  destruct (for_range_spec N gamma Xb y (length h) X Y (range n) _ _ _ _ Hcs)
    as (h' & r & Hfor & Hr).
  destruct (iterate N gamma X Y (range n) T0 E) as [[T' E'] | e].
  - destruct Hr as (theta' & -> & Hcs').
    rewrite (bind_ok _ _ _ _ _ Hfor). simpl.
    by rewrite (cs_theta _ _ _ _ _ _ _ _ _ Hcs'), (cs_ev _ _ _ _ _ _ _ _ _ Hcs').
  - subst r. by rewrite (bind_raise _ _ _ _ _ Hfor).
Qed.

Lemma run_value Xb y theta0 gamma n (h : store S) X Y T0 :
  h !! Xb = Some X -> h !! y = Some Y -> h !! theta0 = Some T0 ->
  observe (run Xb y theta0 gamma n h) =
  cell_value (Z.of_nat (nrows X)) n gamma X Y T0.
Proof.
  intros HX HY HT. unfold run. rewrite (bind_load _ _ _ _ HX).
  by apply gradient_descent_value.
Qed.

End Simulation.

(** ** Column vectors *)

Section Columns.
Context {S : Type} `{Scalar S}.

Lemma vec_col (v : list S) : vec (col v) = v.
Proof.
  unfold vec, column, col. rewrite map_map. simpl. apply map_id.
Qed.

Lemma col_vec (a : ndarray S) p : has_shape a p 1 -> col (vec a) = a.
Proof.
  intros (Hwf & _ & Hc). unfold wf_array in Hwf. rewrite Hc in Hwf. clear Hc.
  unfold vec, column, col. rewrite map_map.
  induction Hwf as [| r a Hr _ IH]; [done |]. simpl. f_equal; [| done].
  destruct r as [| x [| ? ?]]; simpl in *; congruence.
Qed.

Lemma length_col (v : list S) : length (col v) = length v.
Proof. apply length_map. Qed.

Lemma length_vec (a : ndarray S) : length (vec a) = nrows a.
Proof. apply length_map. Qed.

Lemma ncols_col (v : list S) : v <> [] -> ncols (col v) = 1.
Proof. by destruct v. Qed.

Lemma has_shape_col (v : list S) p : length v = p -> 0 < p -> has_shape (col v) p 1.
Proof.
  intros Hlen Hp. assert (v <> []) by (destruct v; simpl in *; [lia | done]).
  split; [| split].
  - unfold wf_array. rewrite ncols_col by done. unfold col.
    rewrite Forall_map. by apply Forall_true.
  - unfold nrows. by rewrite length_col.
  - by apply ncols_col.
Qed.

Lemma lookup_map {A B} (f : A -> B) (l : list A) i : map f l !! i = f <$> l !! i.
Proof. revert i. induction l as [| x l IH]; intros [| i]; simpl; auto. Qed.

Lemma col_lookup (v : list S) i : col v !! i = (fun x => [x]) <$> v !! i.
Proof. apply lookup_map. Qed.

Lemma has_shape_vec a p : has_shape a p 1 -> length (vec a) = p /\ 0 < p.
Proof.
  intros (Hwf & Hr & Hc). rewrite length_vec. split; [done |].
  destruct a; simpl in *; [discriminate | lia].
Qed.

(** A list read through its indices. *)
Lemma map_nth_seq {A} (l : list A) d :
  map (fun i => nth i l d) (seq 0 (length l)) = l.
Proof.
  apply list_eq. intros i. rewrite lookup_map.
  destruct (decide (i < length l)) as [Hi | Hi].
  - rewrite lookup_seq_lt by done. simpl.
    destruct (nth_lookup_or_length l i d) as [-> | ?]; [done | lia].
  - rewrite lookup_seq_ge by lia. simpl. symmetry. apply lookup_ge_None. lia.
Qed.

Lemma zip_with_nth_seq (f : S -> S -> S) (u v : list S) n d :
  length u = n -> length v = n ->
  map (fun i => f (nth i u d) (nth i v d)) (seq 0 n) = zip_with f u v.
Proof.
  revert v n. induction u as [| x u IH]; intros [| y v] [| n] Hu Hv;
    simpl in *; try done.
  f_equal. rewrite <- seq_shift, map_map. apply IH; lia.
Qed.

Lemma bidx_lt dim i : i < dim -> bidx dim i = i.
Proof. unfold bidx. case_decide; lia. Qed.

Lemma item_col v i : item (col v) i 0 = nth i v s_zero.
Proof.
  unfold item, col. revert i. induction v as [| x v IH]; intros [| i]; simpl; done.
Qed.

Lemma broadcast_same n : broadcast n n = Some n.
Proof. unfold broadcast. by rewrite decide_True. Qed.

(** [u - v] on columns of one length. *)
Lemma np_sub_col u v n :
  length u = n -> length v = n ->
  np_sub (col u) (col v) = Ok (col (zip_with s_sub u v)).
Proof.
  intros Hu Hv. unfold np_sub, nrows. rewrite !length_col, Hu, Hv, broadcast_same.
  destruct (decide (n = 0)) as [-> | Hn].
  { destruct u, v; simpl in *; lia || done. }
  rewrite !ncols_col by (intros ->; simpl in *; lia).
  rewrite broadcast_same. f_equal. unfold tabulate.
  rewrite <- (zip_with_nth_seq s_sub u v n s_zero) by done.
  unfold col at 3. rewrite map_map. apply map_ext_in. intros i Hi.
  apply in_seq in Hi. cbn [map seq]. change (bidx 1 0) with 0.
  rewrite bidx_lt by lia. by rewrite !item_col.
Qed.

(** [a.dot(v)] for a column [v]. *)
Lemma np_dot_col a v :
  ncols a = length v -> v <> [] ->
  np_dot a (col v) = Ok (col (map (fun row => dotp row v) a)).
Proof.
  intros Hc Hv. unfold np_dot, nrows. rewrite length_col, decide_True by done.
  rewrite ncols_col by done. simpl. f_equal. unfold col. rewrite map_map.
  apply map_ext. intros row. fold (col v). fold (vec (col v)). by rewrite vec_col.
Qed.

Lemma np_scale_col c v : np_scale c (col v) = col (map (s_mul c) v).
Proof. unfold np_scale, col. by rewrite !map_map. Qed.

(** The rows of [a.T] are the columns of [a]. *)
Lemma transpose_columns a :
  wf_array a -> transpose a = map (column a) (seq 0 (ncols a)).
Proof.
  intros Hwf. unfold transpose, tabulate. apply map_ext. intros j.
  unfold column, item, nrows.
  rewrite <- (map_nth_seq a []) at 2. by rewrite map_map.
Qed.

Lemma length_column a j : length (column a j) = nrows a.
Proof. apply length_map. Qed.

Lemma ncols_transpose a :
  wf_array a -> 0 < ncols a -> ncols (transpose a) = nrows a.
Proof.
  intros Hwf Hc. rewrite transpose_columns by done.
  destruct (ncols a) as [| c]; [lia |]. simpl. apply length_column.
Qed.

End Columns.

(** ** The closed form of the step, on vectors *)

Section Reference.
Context {S : Type} `{Scalar S}.

Lemma length_mat_vec X theta : length (mat_vec X theta) = nrows X.
Proof. apply length_map. Qed.

Lemma length_matT_vec X r : length (matT_vec X r) = ncols X.
Proof. unfold matT_vec. by rewrite length_map, length_seq. Qed.

Lemma length_residual X theta y :
  length y = nrows X -> length (residual X theta y) = nrows X.
Proof. intros Hy. unfold residual. rewrite length_zip_with, length_mat_vec. lia. Qed.

Lemma length_mse_gradient X theta y : length (mse_gradient X theta y) = ncols X.
Proof. unfold mse_gradient. by rewrite length_map, length_matT_vec. Qed.

Lemma length_mse_step gamma X y theta :
  length theta = ncols X -> length (mse_step gamma X y theta) = ncols X.
Proof.
  intros Hth. unfold mse_step.
  rewrite length_zip_with, length_map, length_mse_gradient. lia.
Qed.

Lemma nonempty_length {A} (l : list A) : 0 < length l -> l <> [].
Proof. destruct l; simpl; [lia | done]. Qed.

(** The [gradients] expression of the cell computes the closed form. *)
Lemma gradients_expr_col X theta y :
  wf_array X -> 0 < nrows X -> 0 < ncols X ->
  length theta = ncols X -> length y = nrows X ->
  gradients_expr (Z.of_nat (nrows X)) X (col theta) (col y) =
  Ok (col (mse_gradient X theta y)).
Proof.
  intros Hwf Hn Hp Hth Hy. unfold gradients_expr, py_div.
  rewrite decide_False by lia. simpl.
  rewrite np_dot_col by (by auto using nonempty_length with lia). simpl.
  fold (mat_vec X theta).
  rewrite (np_sub_col _ _ (nrows X)) by (by rewrite ?length_mat_vec). simpl.
  fold (residual X theta y).
  rewrite np_dot_col; simpl.
  - rewrite np_scale_col, transpose_columns by done.
    unfold mse_gradient, matT_vec, nrows. by rewrite !map_map.
  - rewrite ncols_transpose by done. by rewrite length_residual.
  - apply nonempty_length. rewrite length_residual by done. done.
Qed.

(** The update of an iteration is the closed-form step. *)
Lemma step_col gamma X theta y :
  wf_array X -> 0 < nrows X -> 0 < ncols X ->
  length theta = ncols X -> length y = nrows X ->
  step (Z.of_nat (nrows X)) gamma X (col y) (col theta) =
  Ok (col (mse_step gamma X y theta)).
Proof.
  intros Hwf Hn Hp Hth Hy. unfold step.
  rewrite gradients_expr_col by done. simpl. unfold update_expr.
  rewrite np_scale_col.
  apply (np_sub_col _ _ (ncols X)); [done |].
  by rewrite length_map, length_mse_gradient.
Qed.

End Reference.

(** ** The trajectory buffer *)

Section Trajectory.
Context {S : Type} `{Scalar S}.

Lemma trajectory_rows (r0 r1 : list S) n :
  length r0 = n -> length r1 = n ->
  trajectory [r0; r1] = map (fun j => [nth j r0 s_zero; nth j r1 s_zero]) (seq 0 n).
Proof. intros Hr0 Hr1. unfold trajectory, transpose, tabulate. simpl. by rewrite Hr0. Qed.

Lemma trajectory_lookup (r0 r1 : list S) n j a b :
  length r0 = n -> length r1 = n -> r0 !! j = Some a -> r1 !! j = Some b ->
  trajectory [r0; r1] !! j = Some [a; b].
Proof.
  intros Hr0 Hr1 Ha Hb. rewrite (trajectory_rows r0 r1 n), lookup_map by done.
  rewrite lookup_seq_lt by (apply lookup_lt_Some in Ha; lia). simpl.
  by rewrite (nth_lookup_Some _ _ _ _ Ha), (nth_lookup_Some _ _ _ _ Hb).
Qed.

Lemma length_trajectory (r0 r1 : list S) n :
  length r0 = n -> length r1 = n -> length (trajectory [r0; r1]) = n.
Proof.
  intros Hr0 Hr1. by rewrite (trajectory_rows r0 r1 n), length_map, length_seq.
Qed.

Lemma has_shape_rows (r0 r1 : list S) n :
  length r0 = n -> length r1 = n -> has_shape [r0; r1] 2 n.
Proof.
  intros Hr0 Hr1. split; [| done].
  unfold wf_array. simpl. repeat constructor; congruence.
Qed.

(** The two writes of an iteration put the first two entries of [theta]
    into column [k]. *)
Lemma snapshot_rows (r0 r1 : list S) k theta a b :
  theta !! 0 = Some a -> theta !! 1 = Some b ->
  k < length r0 -> length r1 = length r0 ->
  snapshot [r0; r1] k (col theta) = Ok [<[k := a]> r0; <[k := b]> r1].
Proof.
  intros Ha Hb Hk Hlen. unfold snapshot, getitem, itemset.
  rewrite !col_lookup, Ha, Hb. simpl.
  rewrite decide_True by (simpl; lia). simpl.
  rewrite decide_True by (simpl; rewrite length_insert; lia). done.
Qed.

Section Loop.
Variables (N : Z) (gamma : S) (X Y : ndarray S) (p : nat).
Variable f : list S -> list S.
Hypothesis Hp : 2 <= p.
Hypothesis Hstep : forall theta, length theta = p ->
  step N gamma X Y (col theta) = Ok (col (f theta)) /\ length (f theta) = p.

Lemma length_iter_step theta j : length theta = p -> length (Nat.iter j f theta) = p.
Proof. intros Hth. induction j as [| j IH]; simpl; [done |]. by apply Hstep. Qed.

(** The iterations [k .. k+m-1]: the columns before [k] are kept, column
    [k+j] receives the first two entries of the parameter vector after [j]
    updates, and [theta] ends after [m] updates. *)
Lemma iterate_seq m : forall k theta r0 r1,
  length r0 = k + m -> length r1 = k + m -> length theta = p ->
  exists r0' r1',
    iterate N gamma X Y (seq k m) (col theta) [r0; r1] =
      Ok (col (Nat.iter m f theta), [r0'; r1']) /\
    length r0' = k + m /\ length r1' = k + m /\
    (forall j, j < k -> r0' !! j = r0 !! j /\ r1' !! j = r1 !! j) /\
    (forall j, j < m -> r0' !! (k + j) = Nat.iter j f theta !! 0 /\
                        r1' !! (k + j) = Nat.iter j f theta !! 1).
Proof.
  induction m as [| m IH]; intros k theta r0 r1 Hr0 Hr1 Hth.
  - exists r0, r1. simpl. repeat split; auto; lia.
  - destruct (lookup_lt_is_Some_2 theta 0) as [a Ha]; [lia |].
    destruct (lookup_lt_is_Some_2 theta 1) as [b Hb]; [lia |].
    destruct (Hstep theta Hth) as [Hst Hlen].
    cbn [seq iterate].
    rewrite (snapshot_rows r0 r1 k theta a b) by (done || lia). simpl.
    rewrite Hst. simpl.
    destruct (IH (Datatypes.S k) (f theta) (<[k := a]> r0) (<[k := b]> r1))
      as (r0' & r1' & Hit & Hl0 & Hl1 & Hpre & Hnew);
      [rewrite length_insert; lia | rewrite length_insert; lia | done |].
    exists r0', r1'. rewrite Hit, <- Nat.iter_succ_r.
    split; [done |]. split; [lia |]. split; [lia |]. split.
    + intros j Hj. destruct (Hpre j) as [H0 H1]; [lia |].
      rewrite H0, H1. by rewrite !list_lookup_insert_ne by lia.
    + intros [| j] Hj.
      * rewrite Nat.add_0_r. destruct (Hpre k) as [H0 H1]; [lia |].
        rewrite H0, H1. simpl. rewrite Ha, Hb.
        by rewrite !list_lookup_insert_eq by lia.
      * destruct (Hnew j) as [H0 H1]; [lia |].
        replace (k + Datatypes.S j) with (Datatypes.S k + j) by lia.
        by rewrite H0, H1, <- !Nat.iter_succ_r.
Qed.

(** The whole cell on well-shaped values. *)
Lemma cell_value_ok n theta0 :
  (0 <= n)%Z -> length theta0 = p ->
  exists E,
    cell_value N n gamma X Y (col theta0) =
      Ok (col (Nat.iter (Z.to_nat n) f theta0), E) /\
    has_shape E 2 (Z.to_nat n) /\
    length (trajectory E) = Z.to_nat n /\
    forall j, j < Z.to_nat n ->
      trajectory E !! j = Some (take 2 (Nat.iter j f theta0)).
Proof.
  intros Hn Hth. unfold cell_value, np_ones, range.
  rewrite decide_True by lia. simpl.
  change (Pos.to_nat 2) with 2. cbn [replicate].
  set (ones := replicate (Z.to_nat n) s_one).
  destruct (iterate_seq (Z.to_nat n) 0 theta0 ones ones)
    as (r0 & r1 & Hit & Hl0 & Hl1 & _ & Hnew);
    [by apply length_replicate | by apply length_replicate | done |].
  simpl in Hl0, Hl1.
  exists [r0; r1]. split; [done |].
  split; [by apply has_shape_rows |].
  split; [by apply length_trajectory |].
  intros j Hj. destruct (Hnew j Hj) as [H0 H1]. simpl in H0, H1.
  pose proof (length_iter_step theta0 j Hth) as Hlen.
  destruct (Nat.iter j f theta0) as [| a [| b t]] eqn:Et; simpl in Hlen; try lia.
  simpl in *. by apply (trajectory_lookup r0 r1 (Z.to_nat n)).
Qed.

End Loop.
End Trajectory.

(** ** Calls on well-shaped inputs *)

Section Run.
Context {S : Type} `{Scalar S}.

Lemma length_theta_k gamma X y theta0 k :
  length theta0 = ncols X -> length (theta_k gamma X y theta0 k) = ncols X.
Proof.
  intros Hth. unfold theta_k. induction k as [| k IH]; simpl; [done |].
  by apply length_mse_step.
Qed.

Lemma step_closed_form gamma X Y T N p :
  has_shape X N p -> has_shape Y N 1 -> has_shape T p 1 ->
  step (Z.of_nat N) gamma X Y T = Ok (col (mse_step gamma X (vec Y) (vec T))) /\
  has_shape (col (mse_step gamma X (vec Y) (vec T))) p 1.
Proof.
  intros (HwfX & HN & Hp) HY HT.
  destruct (has_shape_vec _ _ HY) as [HlenY HN0].
  destruct (has_shape_vec _ _ HT) as [HlenT Hp0].
  pose proof (col_vec Y N HY) as EY. pose proof (col_vec T p HT) as ET.
  set (yv := vec Y) in *. set (tv := vec T) in *.
  rewrite <- EY, <- ET, <- HN. split.
  - apply step_col; try done; lia.
  - apply has_shape_col; [| done]. rewrite length_mse_step; lia.
Qed.

(** A call on well-shaped inputs with at least two parameters returns:
    [theta] after [n] closed-form steps, and a buffer of shape (2, n) whose
    column [j] holds the first two entries of [theta] after [j] steps. *)
Lemma run_ok h Xb y theta0 X Y T0 N p gamma n :
  valid_call h Xb y theta0 X Y T0 N p -> 2 <= p -> (0 <= n)%Z ->
  exists E,
    observe (run Xb y theta0 gamma n h) =
      Ok (col (theta_k gamma X (vec Y) (vec T0) (Z.to_nat n)), E) /\
    has_shape E 2 (Z.to_nat n) /\
    length (trajectory E) = Z.to_nat n /\
    forall j, j < Z.to_nat n ->
      trajectory E !! j = Some (take 2 (theta_k gamma X (vec Y) (vec T0) j)).
Proof.
  intros [HX HY HT HsX HsY HsT] Hp Hn.
  rewrite (run_value _ _ _ _ _ _ _ _ _ HX HY HT).
  destruct (has_shape_vec _ _ HsT) as [HlenT _].
  pose proof HsX as (HwfX & HN & Hc).
  pose proof (col_vec T0 p HsT) as ET.
  set (tv := vec T0) in *. rewrite <- ET, HN.
  apply (cell_value_ok _ _ _ _ p); try done.
  intros theta Hth.
  assert (has_shape (col theta) p 1) as Hs by (apply has_shape_col; lia).
  destruct (step_closed_form gamma X Y (col theta) N p) as [Hst Hsh]; try done.
  rewrite vec_col in Hst, Hsh. split; [done |].
  rewrite length_mse_step; lia.
Qed.

End Run.

(** ** Calls on inputs that do not fit *)

Section Mismatch.
Context {S : Type} `{Scalar S}.

Lemma length_tabulate r c (f : nat -> nat -> S) : length (tabulate r c f) = r.
Proof. unfold tabulate. by rewrite length_map, length_seq. Qed.

(** The update raises when the shapes do not fit and no axis of length one
    lets numpy stretch [y]. *)
Lemma step_shape_mismatch gamma X Y T N p M q :
  has_shape X N p -> has_shape Y M 1 -> has_shape T q 1 -> 1 <= N ->
  p <> q \/ (M <> N /\ M <> 1) ->
  exists why, step (Z.of_nat N) gamma X Y T = Raise (ValueError why).
Proof.
  intros (HwfX & HN & Hc) HsY HsT HN1 Hmis.
  destruct (has_shape_vec _ _ HsT) as [HlenT Hq].
  pose proof HsY as (_ & HM & HcY).
  unfold step, gradients_expr, py_div. rewrite decide_False by lia. simpl.
  destruct (decide (p = q)) as [-> | Hpq].
  2: { unfold np_dot. destruct HsT as (_ & HrT & _).
       rewrite decide_False by congruence. by eexists. }
  destruct Hmis as [? | [HMN HM1]]; [done |].
  rewrite <- (col_vec T q HsT).
  rewrite np_dot_col by (by auto using nonempty_length with lia). simpl.
  set (a := map (fun row => dotp row (vec T)) X).
  assert (length a = N) as Ha by (unfold a; by rewrite length_map).
  unfold np_sub, nrows. rewrite length_col, Ha.
  fold (nrows Y). rewrite HM, HcY.
  rewrite ncols_col by (apply nonempty_length; lia).
  unfold broadcast at 1. rewrite decide_False by lia.
  destruct (decide (N = 1)) as [-> | HN1'].
  - exists shapes_not_aligned. rewrite broadcast_same. simpl.
    match goal with |- context [tabulate M 1 ?f] => set (r := tabulate M 1 f) end.
    assert (nrows r = M) as Hr by apply length_tabulate.
    unfold np_dot. rewrite ncols_transpose by (done || lia).
    by rewrite decide_False by lia.
  - exists operands_not_broadcast. by rewrite decide_False by done.
Qed.

(** The writes of iteration 0 into a fresh buffer. *)
Lemma snapshot_fresh T q m :
  has_shape T q 1 -> 2 <= q -> 1 <= m ->
  exists E', snapshot (replicate 2 (replicate m s_one)) 0 T = Ok E' /\
             trajectory E' !! 0 = Some (take 2 (vec T)).
Proof.
  intros HsT Hq Hm. destruct (has_shape_vec _ _ HsT) as [HlenT _].
  pose proof (col_vec T q HsT) as ET.
  set (tv := vec T) in *. rewrite <- ET. clearbody tv. clear ET HsT.
  destruct tv as [| a [| b t]]; simpl in HlenT; try lia.
  cbn [replicate]. set (ones := replicate m s_one).
  assert (length ones = m) as Hones by apply length_replicate.
  rewrite (snapshot_rows ones ones 0 (a :: b :: t) a b) by (done || lia).
  eexists. split; [done |].
  apply (trajectory_lookup _ _ m); rewrite ?length_insert; try done;
    apply list_lookup_insert_eq; lia.
Qed.

(** A first iteration whose writes succeed and whose update raises: the
    call raises, and the buffer it allocated holds the writes. *)
Lemma run_raises_in_first_iteration (h : store S) Xb y theta0 X Y T0 gamma n E' e :
  h !! Xb = Some X -> h !! y = Some Y -> h !! theta0 = Some T0 -> (1 <= n)%Z ->
  snapshot (replicate 2 (replicate (Z.to_nat n) s_one)) 0 T0 = Ok E' ->
  step (Z.of_nat (nrows X)) gamma X Y T0 = Raise e ->
  exists h', run Xb y theta0 gamma n h = (h', Raise e) /\
             h' !! length h = Some E'.
Proof.
  intros HX HY HT Hn Hsnap Hstep. unfold run.
  rewrite (bind_load _ _ _ _ HX). unfold gradient_descent.
  rewrite bind_lift. unfold np_ones. rewrite decide_True by lia.
  change (Z.to_nat 2) with 2.
  set (E := replicate 2 (replicate (Z.to_nat n) s_one)) in *.
  rewrite (bind_ok _ _ h (h ++ [E]) (length h)) by done.
  pose proof (lookup_lt_Some _ _ _ HX). pose proof (lookup_lt_Some _ _ _ HY).
  pose proof (lookup_lt_Some _ _ _ HT).
  assert (cell_store (h ++ [E]) Xb y theta0 (length h) X Y T0 E) as Hcs.
  { split; try lia; try (by rewrite lookup_app_l).
    rewrite lookup_app_r by lia. by rewrite Nat.sub_diag. }
  unfold range. destruct (Z.to_nat n) as [| m] eqn:En; [lia |].
  cbn [seq for_range].
  destruct (body_spec _ (Z.of_nat (nrows X)) gamma Xb y theta0 (length h) 0 X Y T0 E Hcs)
    as (h' & r & Hbody & Hr).
  rewrite Hsnap, Hstep in Hr. destruct Hr as [HE' ->].
  exists h'. split; [| done].
  apply bind_raise. by apply bind_raise.
Qed.

End Mismatch.

(** ** A step of size zero *)

(** Exact rationals and reals have the two laws; binary64 does not. *)
#[export] Instance Qc_exact : ExactScalar Qc.
Proof. split; intros x; simpl; change (Q2Qc 0) with 0%Qc; ring. Qed.

#[export] Instance R_exact : ExactScalar R.
Proof. split; intros x; simpl; lra. Qed.

Section ZeroStep.
Context {S : Type} `{Scalar S}.

Lemma zip_sub_kept (theta g : list S) :
  length g = length theta ->
  (forall i t z, theta !! i = Some t -> g !! i = Some z -> kept_by_zero_step t z) ->
  zip_with s_sub theta (map (s_mul s_zero) g) = theta.
Proof.
  revert g. induction theta as [| x theta IH]; intros [| z g] Hlen Hkept;
    simpl in *; try done.
  f_equal.
  - apply (Hkept 0 x z); done.
  - apply IH; [lia |]. intros i t z' Ht Hz. by apply (Hkept (Datatypes.S i)).
Qed.

Lemma mse_step_kept X y theta :
  length theta = ncols X ->
  (forall i t g, theta !! i = Some t -> mse_gradient X theta y !! i = Some g ->
                 kept_by_zero_step t g) ->
  mse_step s_zero X y theta = theta.
Proof.
  intros Hth Hkept. unfold mse_step. apply zip_sub_kept; [| done].
  by rewrite length_mse_gradient.
Qed.

Lemma theta_k_kept X y theta0 k :
  length theta0 = ncols X ->
  (forall i t g, theta0 !! i = Some t -> mse_gradient X theta0 y !! i = Some g ->
                 kept_by_zero_step t g) ->
  theta_k s_zero X y theta0 k = theta0.
Proof.
  intros Hth Hkept. unfold theta_k. induction k as [| k IH]; simpl; [done |].
  rewrite IH. by apply mse_step_kept.
Qed.

End ZeroStep.

(** In exact arithmetic every entry is kept. *)
Lemma exact_zero_step {S : Type} `{ExactScalar S} (t g : S) : kept_by_zero_step t g.
Proof. unfold kept_by_zero_step. by rewrite mul_zero_l, sub_zero_r. Qed.

(** A finite binary64 number is a zero or has a mantissa and an exponent. *)
Lemma Prim2SF_finite (g : float) :
  PrimFloat.is_finite g = true ->
  exists s, Prim2SF g = S754_zero s \/ exists m e, Prim2SF g = S754_finite s m e.
Proof.
  unfold PrimFloat.is_finite, Prim2SF. intros Hfin.
  destruct (PrimFloat.is_nan g); [done |].
  destruct (PrimFloat.is_infinity g); [done |].
  destruct (PrimFloat.is_zero g); [by eexists; left |].
  destruct (Z.frexp g) as [r ex].
  destruct (shr_fexp prec emax (Uint63Axioms.to_Z (normfr_mantissa r)) (ex - prec) loc_Exact)
    as [shr e'].
  destruct (shr_m shr); [by eexists; left | by eexists; right; eexists _, _ | by eexists; left].
Qed.

(** In binary64 [0·g] is a zero for a finite [g], and [t] minus a zero is
    [t] unless [t] is the negative zero. *)
Lemma float_zero_step (t g : float) :
  PrimFloat.is_finite g = true -> t <> neg_zero -> kept_by_zero_step t g.
Proof.
  intros Hfin Ht. unfold kept_by_zero_step. simpl.
  apply Prim2SF_inj. rewrite sub_spec, mul_spec.
  assert (Prim2SF t <> S754_zero true) as Ht'.
  { intros Hz. apply Ht. apply Prim2SF_inj. rewrite Hz. reflexivity. }
  change (Prim2SF 0) with (S754_zero false).
  destruct (Prim2SF_finite g Hfin) as [s [-> | (m & e & ->)]];
    unfold SF64mul, SF64sub; cbn [SFmul xorb];
    destruct (Prim2SF t) as [[|] | [|] | | st mt et]; destruct s; try done.
Qed.

(** ** The mean squared error along the iterations, in real arithmetic *)

Section Descent.
Local Open Scope R_scope.





















End Descent.

(** ** The concrete inputs are well-shaped *)

Lemma valid_call_h3 : valid_call h3 0 1 2 X3 y3 t3 3 2.
Proof. split; try reflexivity; (split; [| done]); repeat constructor. Qed.


Lemma valid_call_h3f : valid_call h3f 0 1 2 X3f y3f t3f 3 2.
Proof. split; try reflexivity; (split; [| done]); repeat constructor. Qed.


Lemma valid_call_h1 : valid_call h1 0 1 2 X1 y1 t1 1 1.
Proof. split; try reflexivity; (split; [| done]); repeat constructor. Qed.



(** ** The properties of the cell *)

(** C1, as the cell has it.  The update of the cell maps [θ] to the
    closed-form step of the mean squared error, [θ − γ·(2/N)·Xᵀ(X·θ − y)],
    whatever the number of parameters.  With at least two parameters, what
    the cell returns after [k + 1] iterations is this step applied to what
    it returns after [k] iterations, and after no iteration it returns
    [theta0].  In particular, for X = [[1,0],[1,1],[1,2]], y = [1,2,3],
    theta0 = [0,0] and γ = 1/10, one iteration returns the value of the
    closed form, which is [2/5, 8/15].  With a single parameter no update
    is ever made: a call with at least one iteration raises [IndexError] at
    [theta[1]], before the update of its first iteration. *)
Theorem update_is_closed_form_step :
  (forall (S : Type) (Sc : Scalar S) (X Y T : ndarray S) (N p : nat) (gamma : S),
      has_shape X N p -> has_shape Y N 1 -> has_shape T p 1 ->
      step (Z.of_nat N) gamma X Y T = Ok (col (mse_step gamma X (vec Y) (vec T)))) /\
  (forall (S : Type) (Sc : Scalar S) (h : store S) (Xb y theta0 : loc)
          (X Y T0 : ndarray S) (N p : nat) (gamma : S) (k : nat),
      valid_call h Xb y theta0 X Y T0 N p -> 2 <= p ->
      exists Tk Ek Tk1 Ek1,
        observe (run Xb y theta0 gamma (Z.of_nat k) h) = Ok (Tk, Ek) /\
        observe (run Xb y theta0 gamma (Z.of_nat (k + 1)) h) = Ok (Tk1, Ek1) /\
        (k = 0 -> Tk = T0) /\
        has_shape Tk p 1 /\
        Tk1 = col (mse_step gamma X (vec Y) (vec Tk))) /\
  (exists E,
      observe (run 0 1 2 (qc 1 10) 1 h3) =
        Ok (col (mse_step (qc 1 10) X3 (vec y3) (vec t3)), E)) /\
  map this (mse_step (qc 1 10) X3 (vec y3) (vec t3)) = [2 # 5; 8 # 15] /\
  (forall (S : Type) (Sc : Scalar S) (h : store S) (Xb y theta0 : loc)
          (X Y T0 : ndarray S) (N : nat) (gamma : S) (n : Z),
      valid_call h Xb y theta0 X Y T0 N 1 -> (1 <= n)%Z ->
      observe (run Xb y theta0 gamma n h) = Raise IndexError).
Proof.
  assert (forall (S : Type) (Sc : Scalar S) (h : store S) (Xb y theta0 : loc)
          (X Y T0 : ndarray S) (N p : nat) (gamma : S) (k : nat),
      valid_call h Xb y theta0 X Y T0 N p -> 2 <= p ->
      exists Tk Ek Tk1 Ek1,
        observe (run Xb y theta0 gamma (Z.of_nat k) h) = Ok (Tk, Ek) /\
        observe (run Xb y theta0 gamma (Z.of_nat (k + 1)) h) = Ok (Tk1, Ek1) /\
        (k = 0 -> Tk = T0) /\
        has_shape Tk p 1 /\
        Tk1 = col (mse_step gamma X (vec Y) (vec Tk))) as General.
  { intros S Sc h Xb y theta0 X Y T0 N p gamma k Hvc Hp.
    destruct (run_ok h Xb y theta0 X Y T0 N p gamma (Z.of_nat k) Hvc Hp)
      as (Ek & Hk & _); [lia |].
    destruct (run_ok h Xb y theta0 X Y T0 N p gamma (Z.of_nat (k + 1)) Hvc Hp)
      as (Ek1 & Hk1 & _); [lia |].
    rewrite Nat2Z.id in Hk, Hk1.
    destruct (has_shape_vec _ _ (vc_T0 _ _ _ _ _ _ _ _ _ Hvc)) as [HlenT _].
    destruct (vc_X _ _ _ _ _ _ _ _ _ Hvc) as (_ & _ & Hc).
    eexists _, Ek, _, Ek1. split; [exact Hk |]. split; [exact Hk1 |].
    split; [| split].
    - intros ->. simpl. by apply (col_vec T0 p), (vc_T0 _ _ _ _ _ _ _ _ _ Hvc).
    - apply has_shape_col; [| lia]. rewrite length_theta_k; lia.
    - rewrite vec_col, Nat.add_1_r. done. }
  split; [| split; [exact General | split; [| split]]].
  - intros S Sc X Y T N p gamma HsX HsY HsT.
    by apply (step_closed_form gamma X Y T N p).
  - destruct (General Qc _ h3 0 1 2 X3 y3 t3 3 2 (qc 1 10) 0 valid_call_h3)
      as (Tk & Ek & Tk1 & Ek1 & _ & H1 & H0 & _ & ->); [lia |].
    rewrite (H0 eq_refl) in H1. by exists Ek1.
  - by vm_compute.
  - intros S Sc h Xb y theta0 X Y T0 N gamma n [HX HY HT _ _ (HwfT & HrT & HcT)] Hn.
    rewrite (run_value _ _ _ _ _ _ _ _ _ HX HY HT).
    unfold cell_value, np_ones. rewrite decide_True by lia.
    change (Z.to_nat 2) with 2. unfold range.
    destruct (Z.to_nat n) as [| m] eqn:En; [lia |].
    cbn [mbind res_bind seq iterate replicate].
    destruct T0 as [| [| a [| b row]] [| r T0]]; try done.
Qed.

Lemma update_is_closed_form_step_witness :
  exists Tk Ek Tk1 Ek1,
    observe (run 0 1 2 (qc 1 10) (Z.of_nat 1) h3) = Ok (Tk, Ek) /\
    observe (run 0 1 2 (qc 1 10) (Z.of_nat (1 + 1)) h3) = Ok (Tk1, Ek1) /\
    (1 = 0 -> Tk = t3) /\
    has_shape Tk 2 1 /\
    Tk1 = col (mse_step (qc 1 10) X3 (vec y3) (vec Tk)).
Proof.
  apply (proj1 (proj2 update_is_closed_form_step)
           Qc _ h3 0 1 2 X3 y3 t3 3 2 (qc 1 10) 1).
  - exact valid_call_h3.
  - lia.
Defined.

(** C1 fails for a single parameter: with X = [[1]], y = [[1]],
    theta0 = [[0]] and γ = 1/10 the closed-form step of theta0 is [1/5], and
    the update expression of the cell computes it, but a call with one
    iteration raises [IndexError] instead of returning it: iteration 0
    makes no update. *)
Lemma single_parameter_run_makes_no_update :
  valid_call h1 0 1 2 X1 y1 t1 1 1 /\
  map this (mse_step (qc 1 10) X1 (vec y1) (vec t1)) = [1 # 5] /\
  step (Z.of_nat 1) (qc 1 10) X1 y1 t1 =
    Ok (col (mse_step (qc 1 10) X1 (vec y1) (vec t1))) /\
  observe (run 0 1 2 (qc 1 10) 1 h1) = Raise IndexError.
Proof.
  split; [exact valid_call_h1 |]. split; [by vm_compute |].
  split; [| reflexivity].
  apply (step_closed_form (qc 1 10) X1 y1 t1 1 1);
    (split; [| done]); repeat constructor.
Qed.

(** The same case run in binary64, with γ the double nearest to 1/10: the
    returned [theta] is within [2^-50] of [2/5, 8/15], and the trajectory
    holds theta0. *)
Example first_step_in_binary64 :
  exists a b,
    observe (run 0 1 2 0x1.999999999999ap-4%float 1 h3f) =
      Ok ([[a]; [b]], [[0]; [0]]%float) /\
    close a (2 / 5)%float = true /\ close b (8 / 15)%float = true.
Proof. eexists _, _. split; [vm_compute; reflexivity |]. by vm_compute. Qed.

(** Two iterations in exact rationals: the snapshots are theta0 and the
    result of the first step, and the returned [theta] is one step further. *)
Example two_iterations_in_rationals :
  exists Tf E,
    observe (run 0 1 2 (qc 1 10) 2 h3) = Ok (Tf, E) /\
    rationals Tf = [[46 # 75]; [182 # 225]] /\
    map (map this) (trajectory E) = [[0 # 1; 0 # 1]; [2 # 5; 8 # 15]].
Proof. eexists _, _. split; [reflexivity |]. by vm_compute. Qed.

(** C2, as the cell has it: with at least two parameters and at least one
    iteration, the snapshot at index [k] of the trajectory holds the first two
    entries of the parameter vector as it was before the update of iteration
    [k], which is all of it when there are two parameters: the values
    [theta 0 = theta0], [theta 1], ... that the name [theta] takes are linked
    by the update of the cell, snapshot [k] is taken from [theta k], and the
    returned [theta] is the last of them, one update ahead of the last
    snapshot. *)
Theorem trajectory_records_theta_before_update :
  forall (S : Type) (Sc : Scalar S) (h : store S) (Xb y theta0 : loc)
         (X Y T0 : ndarray S) (N p : nat) (gamma : S) (n : Z),
    valid_call h Xb y theta0 X Y T0 N p -> 2 <= p -> (1 <= n)%Z ->
    exists (theta : nat -> ndarray S) (Tf E : ndarray S),
      observe (run Xb y theta0 gamma n h) = Ok (Tf, E) /\
      theta 0 = T0 /\
      (forall k, k < Z.to_nat n ->
         step (Z.of_nat N) gamma X Y (theta k) = Ok (theta (k + 1)) /\
         trajectory E !! k = Some (take 2 (vec (theta k))) /\
         (p = 2 -> trajectory E !! k = Some (vec (theta k)))) /\
      (p = 2 -> trajectory E !! 0 = Some (vec T0)) /\
      Tf = theta (Z.to_nat n) /\
      step (Z.of_nat N) gamma X Y (theta (Z.to_nat n - 1)) = Ok Tf /\
      (p = 2 ->
       exists last,
         trajectory E !! (Z.to_nat n - 1) = Some last /\
         step (Z.of_nat N) gamma X Y (col last) = Ok Tf).
Proof.
  intros S Sc h Xb y theta0 X Y T0 N p gamma n Hvc Hp Hn.
  destruct (run_ok h Xb y theta0 X Y T0 N p gamma n Hvc) as (E & Hrun & _ & _ & Htraj);
    [lia | lia |].
  pose proof (vc_X _ _ _ _ _ _ _ _ _ Hvc) as HsX.
  pose proof (vc_Y _ _ _ _ _ _ _ _ _ Hvc) as HsY.
  pose proof (vc_T0 _ _ _ _ _ _ _ _ _ Hvc) as HsT.
  destruct (has_shape_vec _ _ HsT) as [HlenT _].
  destruct HsX as (HwfX & HN & Hc).
  set (th := theta_k gamma X (vec Y) (vec T0)) in *.
  assert (forall k, length (th k) = p) as Hlen
    by (intros k; unfold th; rewrite length_theta_k; lia).
  assert (p = 2 -> forall k, take 2 (th k) = th k) as Htake
    by (intros -> k; apply take_ge; rewrite Hlen; lia).
  assert (forall k, step (Z.of_nat N) gamma X Y (col (th k)) = Ok (col (th (k + 1))))
    as Hstep.
  { intros k.
    destruct (step_closed_form gamma X Y (col (th k)) N p) as [Hst _]; try done.
    - apply has_shape_col; [done | lia].
    - by rewrite Hst, vec_col, Nat.add_1_r. }
  exists (fun k => col (th k)), (col (th (Z.to_nat n))), E.
  split; [done |]. split; [by apply (col_vec T0 p) |].
  split; [| split; [| split; [| split]]].
  - intros k Hk. split; [apply Hstep |]. rewrite vec_col, Htraj by done.
    split; [done |]. intros Hp2. by rewrite Htake.
  - intros Hp2. rewrite Htraj by lia. by rewrite Htake.
  - done.
  - rewrite Hstep. do 3 f_equal. lia.
  - intros Hp2. exists (th (Z.to_nat n - 1)). split.
    + rewrite Htraj by lia. by rewrite Htake.
    + rewrite Hstep. do 3 f_equal. lia.
Qed.

Lemma trajectory_records_theta_before_update_witness :
  exists (theta : nat -> ndarray Qc) (Tf E : ndarray Qc),
    observe (run 0 1 2 (qc 1 10) 2 h3) = Ok (Tf, E) /\
    theta 0 = t3 /\
    (forall k, k < Z.to_nat 2 ->
       step (Z.of_nat 3) (qc 1 10) X3 y3 (theta k) = Ok (theta (k + 1)) /\
       trajectory E !! k = Some (take 2 (vec (theta k))) /\
       (2 = 2 -> trajectory E !! k = Some (vec (theta k)))) /\
    (2 = 2 -> trajectory E !! 0 = Some (vec t3)) /\
    Tf = theta (Z.to_nat 2) /\
    step (Z.of_nat 3) (qc 1 10) X3 y3 (theta (Z.to_nat 2 - 1)) = Ok Tf /\
    (2 = 2 ->
     exists last,
       trajectory E !! (Z.to_nat 2 - 1) = Some last /\
       step (Z.of_nat 3) (qc 1 10) X3 y3 (col last) = Ok Tf).
Proof.
  apply (trajectory_records_theta_before_update Qc _ h3 0 1 2 X3 y3 t3 3 2 (qc 1 10) 2).
  - exact valid_call_h3.
  - lia.
  - lia.
Defined.

(** C2 fails for three parameters: with X of shape (2, 3), y of shape (2, 1),
    theta0 = [5, 6, 7] and one iteration, the snapshot at index 0 is [5, 6],
    which is not theta0. *)
Lemma three_parameters_snapshot_is_not_theta :
  valid_call h23 0 1 2 X23 y2 t4 2 3 /\
  exists Tf E s0,
    observe (run 0 1 2 (qc 1 10) 1 h23) = Ok (Tf, E) /\
    trajectory E !! 0 = Some s0 /\
    s0 <> vec t4.
Proof.
  split.
  { split; try reflexivity; (split; [| done]); repeat constructor. }
  eexists _, _, _. split; [reflexivity |]. split; [reflexivity |].
  intros Heq. apply (f_equal length) in Heq. discriminate Heq.
Qed.

(** C3, as the cell has it: for X of shape (N, p) with at least two columns,
    y of shape (N, 1), theta0 of shape (p, 1) and [n_iterations ≥ 0], the call
    returns a trajectory of exactly [n_iterations] snapshots, in a buffer of
    two rows, and a [theta] of [p] rows. *)
Theorem trajectory_and_theta_shapes :
  forall (S : Type) (Sc : Scalar S) (h : store S) (Xb y theta0 : loc)
         (X Y T0 : ndarray S) (N p : nat) (gamma : S) (n : Z),
    valid_call h Xb y theta0 X Y T0 N p -> 2 <= p -> (0 <= n)%Z ->
    exists Tf E : ndarray S,
      observe (run Xb y theta0 gamma n h) = Ok (Tf, E) /\
      length (trajectory E) = Z.to_nat n /\
      has_shape E 2 (Z.to_nat n) /\
      has_shape Tf p 1 /\
      length (vec Tf) = p.
Proof.
  intros S Sc h Xb y theta0 X Y T0 N p gamma n Hvc Hp Hn.
  destruct (run_ok h Xb y theta0 X Y T0 N p gamma n Hvc Hp Hn)
    as (E & Hrun & HsE & Hlen & _).
  destruct (has_shape_vec _ _ (vc_T0 _ _ _ _ _ _ _ _ _ Hvc)) as [HlenT _].
  destruct (vc_X _ _ _ _ _ _ _ _ _ Hvc) as (_ & _ & Hc).
  eexists _, E. split; [exact Hrun |]. split; [done |]. split; [done |].
  assert (length (theta_k gamma X (vec Y) (vec T0) (Z.to_nat n)) = p) as Hl
    by (rewrite length_theta_k; lia).
  split; [apply has_shape_col; lia | by rewrite vec_col].
Qed.

Lemma trajectory_and_theta_shapes_witness :
  exists Tf E : ndarray Qc,
    observe (run 0 1 2 (qc 1 10) 2 h3) = Ok (Tf, E) /\
    length (trajectory E) = Z.to_nat 2 /\
    has_shape E 2 (Z.to_nat 2) /\
    has_shape Tf 2 1 /\
    length (vec Tf) = 2.
Proof.
  apply (trajectory_and_theta_shapes Qc _ h3 0 1 2 X3 y3 t3 3 2 (qc 1 10) 2).
  - exact valid_call_h3.
  - lia.
  - lia.
Defined.

(** C3 fails for a single parameter: with X of shape (1, 1), y of shape
    (1, 1), theta0 of shape (1, 1) and one iteration, [theta[1]] raises
    [IndexError] and nothing is returned. *)
Lemma single_parameter_run_raises :
  valid_call h1 0 1 2 X1 y1 t1 1 1 /\
  observe (run 0 1 2 (qc 1 10) 1 h1) = Raise IndexError.
Proof.
  split; [| reflexivity].
  split; try reflexivity; (split; [| done]); repeat constructor.
Qed.

(** C4. With [n_iterations = 0] the call returns the array [theta0] itself,
    unchanged, and a trajectory with no snapshot. *)
Theorem zero_iterations_return_theta0 :
  forall (S : Type) (Sc : Scalar S) (h : store S) (Xb y theta0 : loc)
         (X T0 : ndarray S) (gamma : S),
    h !! Xb = Some X -> h !! theta0 = Some T0 ->
    exists (h' : store S) (theta_ev : loc) (E : ndarray S),
      run Xb y theta0 gamma 0 h = (h', Ok (theta0, theta_ev)) /\
      h' !! theta0 = Some T0 /\
      h' !! theta_ev = Some E /\
      trajectory E = [].
Proof.
  intros S Sc h Xb y theta0 X T0 gamma HX HT.
  exists (h ++ [[[]; []]]), (length h), [[]; []].
  split; [| split; [| split]].
  - unfold run. by rewrite (bind_load _ _ _ _ HX).
  - by apply lookup_app_l_Some.
  - rewrite lookup_app_r by lia. by rewrite Nat.sub_diag.
  - done.
Qed.

Lemma zero_iterations_return_theta0_witness :
  exists (h' : store Qc) (theta_ev : loc) (E : ndarray Qc),
    run 0 1 2 (qc 1 10) 0 h3 = (h', Ok (2, theta_ev)) /\
    h' !! 2 = Some t3 /\
    h' !! theta_ev = Some E /\
    trajectory E = [].
Proof.
  apply (zero_iterations_return_theta0 Qc _ h3 0 1 2 X3 t3 (qc 1 10)); reflexivity.
Defined.

(** C5, as the cell has it: nothing is checked before the loop.  With no
    iteration the call returns normally whatever the shapes.  With at least
    one iteration and a [theta0] of at least two rows, a column count of X that
    differs from the length of theta0, or a row count of X that differs from
    the length of y when y has more than one row, makes numpy raise
    [ValueError] in the first iteration, after the first two entries of theta0
    have been written into column 0 of the trajectory buffer; the arrays that
    existed before the call are left as they were. *)
Theorem shape_mismatch_raises_in_first_iteration :
  forall (S : Type) (Sc : Scalar S) (h : store S) (Xb y theta0 : loc)
         (X Y T0 : ndarray S) (gamma : S),
    h !! Xb = Some X -> h !! y = Some Y -> h !! theta0 = Some T0 ->
    (exists E, observe (run Xb y theta0 gamma 0 h) = Ok (T0, E)) /\
    forall (N p M q : nat) (n : Z),
      has_shape X N p -> has_shape Y M 1 -> has_shape T0 q 1 ->
      1 <= N -> 2 <= q -> (1 <= n)%Z ->
      p <> q \/ (M <> N /\ M <> 1) ->
      exists (h' : store S) (why : value_error) (E : ndarray S),
        run Xb y theta0 gamma n h = (h', Raise (ValueError why)) /\
        h' !! length h = Some E /\
        trajectory E !! 0 = Some (take 2 (vec T0)) /\
        forall l, l < length h -> h' !! l = h !! l.
Proof.
  intros S Sc h Xb y theta0 X Y T0 gamma HX HY HT. split.
  { rewrite (run_value _ _ _ _ _ _ _ _ _ HX HY HT). by eexists. }
  intros N p M q n HsX HsY HsT HN Hq Hn Hmis.
  destruct (step_shape_mismatch gamma X Y T0 N p M q) as [why Hstep]; try done.
  destruct (snapshot_fresh T0 q (Z.to_nat n)) as (E & Hsnap & Htraj); try done; [lia |].
  destruct HsX as (_ & HrX & _). rewrite <- HrX in Hstep.
  destruct (run_raises_in_first_iteration h Xb y theta0 X Y T0 gamma n E _
              HX HY HT Hn Hsnap Hstep) as (h' & Hrun & HE).
  exists h', why, E. repeat split; try done.
  intros l Hl. by apply (run_preserves _ _ _ _ _ _ _ _ Hrun).
Qed.

Lemma shape_mismatch_raises_in_first_iteration_witness :
  (exists E, observe (run 0 1 2 (qc 1 10) 0 h13) = Ok (t3, E)) /\
  exists (h' : store Qc) (why : value_error) (E : ndarray Qc),
    run 0 1 2 (qc 1 10) 1 h13 = (h', Raise (ValueError why)) /\
    h' !! length h13 = Some E /\
    trajectory E !! 0 = Some (take 2 (vec t3)) /\
    forall l, l < length h13 -> h' !! l = h13 !! l.
Proof.
  destruct (shape_mismatch_raises_in_first_iteration Qc _ h13 0 1 2 X13 y1 t3
              (qc 1 10) eq_refl eq_refl eq_refl) as [Hzero Hraise].
  split; [exact Hzero |].
  apply (Hraise 1 3 1 2 1%Z); try lia;
    try (split; [| done]; repeat constructor).
Defined.

(** C5 fails: with X of shape (1, 3) and theta0 of length 2, a call with no
    iteration returns without an exception, and a call with one iteration
    raises only after it has written into the trajectory buffer, which no
    longer is the array of ones that was allocated.  With X of three rows and
    y of one row, a call with one iteration returns without an exception:
    numpy stretches y. *)
Lemma mismatch_is_not_rejected_before_the_loop :
  ncols X13 <> nrows t3 /\
  (exists E, observe (run 0 1 2 (qc 1 10) 0 h13) = Ok (t3, E)) /\
  (exists h' E0 E,
      run 0 1 2 (qc 1 10) 1 h13 = (h', Raise (ValueError shapes_not_aligned)) /\
      np_ones 2 1 = Ok E0 /\
      h' !! length h13 = Some E /\
      E <> E0) /\
  nrows X3 <> nrows y1 /\
  (exists Tf E, observe (run 0 1 2 (qc 1 10) 1 h31) = Ok (Tf, E)).
Proof.
  split; [simpl; lia |]. split; [by eexists |]. split.
  - eexists _, _, _. split; [reflexivity |]. split; [reflexivity |].
    split; [reflexivity |].
    intros Heq. apply (f_equal rationals) in Heq. discriminate Heq.
  - split; [simpl; lia |]. by eexists _, _.
Qed.

(** The loop alone would pass over a negative [n_iterations] in silence:
    [range] of a negative number is empty. *)
Lemma range_negative (n : Z) : (n < 0)%Z -> range n = [].
Proof. intros Hn. unfold range. by replace (Z.to_nat n) with 0 by lia. Qed.

(** C6. With [n_iterations < 0] the call raises: the allocation of the
    trajectory buffer [np.ones((2, n_iterations))] fails with numpy's
    [ValueError] for a negative dimension, no iteration is performed, and no
    array is created. *)
Theorem negative_iterations_raise :
  forall (S : Type) (Sc : Scalar S) (h : store S) (Xb y theta0 : loc)
         (X : ndarray S) (gamma : S) (n : Z),
    h !! Xb = Some X -> (n < 0)%Z ->
    run Xb y theta0 gamma n h = (h, Raise (ValueError negative_dimensions)).
Proof.
  intros S Sc h Xb y theta0 X gamma n HX Hn. unfold run.
  rewrite (bind_load _ _ _ _ HX). unfold gradient_descent.
  rewrite bind_lift. unfold np_ones. by rewrite decide_False by lia.
Qed.

Lemma negative_iterations_raise_witness :
  run 0 1 2 (qc 1 10) (-1) h3 = (h3, Raise (ValueError negative_dimensions)).
Proof.
  apply (negative_iterations_raise Qc _ h3 0 1 2 X3 (qc 1 10) (-1)).
  - reflexivity.
  - lia.
Defined.




(** C8. The call is deterministic: two calls on the same values of X, y,
    theta0, gamma and n_iterations, whatever else their stores hold and
    wherever the arrays are in them, give the same exception or the same
    final [theta] and the same trajectory. *)
Theorem run_deterministic :
  forall (S : Type) (Sc : Scalar S) (h h' : store S)
         (Xb y theta0 Xb' y' theta0' : loc) (X Y T0 : ndarray S)
         (gamma : S) (n : Z),
    h !! Xb = Some X -> h !! y = Some Y -> h !! theta0 = Some T0 ->
    h' !! Xb' = Some X -> h' !! y' = Some Y -> h' !! theta0' = Some T0 ->
    observe (run Xb y theta0 gamma n h) = observe (run Xb' y' theta0' gamma n h').
Proof.
  intros S Sc h h' Xb y theta0 Xb' y' theta0' X Y T0 gamma n HX HY HT HX' HY' HT'.
  rewrite (run_value _ _ _ _ _ _ _ _ _ HX HY HT).
  by rewrite (run_value _ _ _ _ _ _ _ _ _ HX' HY' HT').
Qed.

Lemma run_deterministic_witness :
  observe (run 0 1 2 (qc 1 10) 2 h3) = observe (run 3 2 0 (qc 1 10) 2 h3').
Proof.
  apply (run_deterministic Qc _ h3 h3' 0 1 2 3 2 0 X3 y3 t3 (qc 1 10) 2); reflexivity.
Defined.

(** C9. The call never changes X or y: whatever the inputs and the number
    of iterations, and whether it returns or raises, the names [Xb] and [y]
    refer to the same arrays after it as before. *)
Theorem run_leaves_inputs_unchanged :
  forall (S : Type) (Sc : Scalar S) (h h' : store S) (Xb y theta0 : loc)
         (X Y : ndarray S) (gamma : S) (n : Z) (r : res (loc * loc)),
    h !! Xb = Some X -> h !! y = Some Y ->
    run Xb y theta0 gamma n h = (h', r) ->
    h' !! Xb = Some X /\ h' !! y = Some Y.
Proof.
  intros S Sc h h' Xb y theta0 X Y gamma n r HX HY Hrun.
  destruct (run_preserves _ _ _ _ _ _ _ _ Hrun) as [_ Hfr].
  rewrite !Hfr by (by eapply lookup_lt_Some). done.
Qed.

Lemma run_leaves_inputs_unchanged_witness :
  fst (run 0 1 2 (qc 1 10) 2 h3) !! 0 = Some X3 /\
  fst (run 0 1 2 (qc 1 10) 2 h3) !! 1 = Some y3.
Proof.
  apply (run_leaves_inputs_unchanged Qc _ h3 _ 0 1 2 X3 y3 (qc 1 10) 2
           (snd (run 0 1 2 (qc 1 10) 2 h3))).
  - reflexivity.
  - reflexivity.
  - apply surjective_pairing.
Defined.

(** C10, as the cell has it.  No step size is rejected: with at least two
    parameters the call returns for every [gamma], in every arithmetic.
    With [gamma = 0] the returned [theta] is theta0 and every snapshot of the
    trajectory holds the first two entries of theta0, which is all of theta0
    when there are two parameters, provided the update keeps each entry of
    theta0 for the corresponding entry [g] of the gradient at theta0,
    [t − 0·g = t].  In exact arithmetic every entry is kept, whatever [g].
    In binary64 an entry is kept when [g] is finite, unless the entry is the
    negative zero, which comes back as the positive zero for [g = -1]. *)
Theorem zero_gamma_keeps_theta0 :
  (forall (S : Type) (Sc : Scalar S) (h : store S) (Xb y theta0 : loc)
          (X Y T0 : ndarray S) (N p : nat) (gamma : S) (n : Z),
      valid_call h Xb y theta0 X Y T0 N p -> 2 <= p -> (0 <= n)%Z ->
      (exists Tf E, observe (run Xb y theta0 gamma n h) = Ok (Tf, E)) /\
      ((forall i t g,
           vec T0 !! i = Some t ->
           mse_gradient X (vec T0) (vec Y) !! i = Some g ->
           kept_by_zero_step t g) ->
       exists E,
         observe (run Xb y theta0 s_zero n h) = Ok (T0, E) /\
         length (trajectory E) = Z.to_nat n /\
         forall k, k < Z.to_nat n ->
           trajectory E !! k = Some (take 2 (vec T0)) /\
           (p = 2 -> trajectory E !! k = Some (vec T0)))) /\
  (forall (S : Type) (Sc : Scalar S) (Ex : ExactScalar S) (t g : S),
      kept_by_zero_step t g) /\
  (forall t g : float,
      PrimFloat.is_finite g = true -> t <> neg_zero -> kept_by_zero_step t g) /\
  (neg_zero - 0 * (-1))%float = 0%float /\
  ~ kept_by_zero_step neg_zero (-1)%float.
Proof.
  split; [| split; [| split; [| split]]].
  - intros S Sc h Xb y theta0 X Y T0 N p gamma n Hvc Hp Hn. split.
    + destruct (run_ok h Xb y theta0 X Y T0 N p gamma n Hvc) as (E & Hrun & _);
        [lia | done |]. by eexists _, E.
    + intros Hkept.
      destruct (run_ok h Xb y theta0 X Y T0 N p s_zero n Hvc)
        as (E & Hrun & _ & Hlen & Htraj); [lia | done |].
      pose proof (vc_T0 _ _ _ _ _ _ _ _ _ Hvc) as HsT.
      destruct (has_shape_vec _ _ HsT) as [HlenT _].
      destruct (vc_X _ _ _ _ _ _ _ _ _ Hvc) as (_ & _ & Hc).
      assert (forall k, theta_k s_zero X (vec Y) (vec T0) k = vec T0) as Hk
        by (intros k; apply theta_k_kept; [lia | done]).
      exists E. rewrite Hk, (col_vec T0 p HsT) in Hrun.
      split; [done |]. split; [done |].
      intros k Hlt. rewrite Htraj, Hk by done. split; [done |].
      intros ->. f_equal. apply take_ge. lia.
  - intros S Sc Ex t g. apply exact_zero_step.
  - exact float_zero_step.
  - reflexivity.
  - unfold kept_by_zero_step. intros Heq.
    apply (f_equal PrimFloat.get_sign) in Heq. vm_compute in Heq. discriminate Heq.
Qed.

Lemma zero_gamma_keeps_theta0_witness :
  (exists Tf E,
      observe (run 0 1 2 (- 0x1.999999999999ap-4)%float 2 h3f) = Ok (Tf, E)) /\
  (exists E,
      observe (run 0 1 2 s_zero 2 h3f) = Ok (t3f, E) /\
      length (trajectory E) = Z.to_nat 2 /\
      forall k, k < Z.to_nat 2 ->
        trajectory E !! k = Some (take 2 (vec t3f)) /\
        (2 = 2 -> trajectory E !! k = Some (vec t3f))).
Proof.
  destruct zero_gamma_keeps_theta0 as (Hrun & _ & Hfloat & _).
  destruct (Hrun float _ h3f 0 1 2 X3f y3f t3f 3 2 (- 0x1.999999999999ap-4)%float 2%Z
              valid_call_h3f ltac:(lia) ltac:(lia)) as [Hreturns Hzero].
  split; [exact Hreturns |]. apply Hzero.
  intros i t g Ht Hg. apply Hfloat.
  - destruct i as [| [| i]]; [| | done]; injection Hg as <-; reflexivity.
  - destruct i as [| [| i]]; [| | done]; injection Ht as <-;
      intros Heq; apply (f_equal PrimFloat.get_sign) in Heq;
      vm_compute in Heq; discriminate Heq.
Defined.

(** In binary64 with finite gradients a step of size zero is the identity
    as well: on the hand-computed case three iterations leave theta0. *)
Example zero_gamma_in_binary64 :
  observe (run 0 1 2 s_zero 3 h3f) = Ok (t3f, [[0; 0; 0]; [0; 0; 0]]%float).
Proof. by vm_compute. Qed.

(** C10 fails in binary64: for X = [[1, 2^1023]], y = [0], theta0 = [0, 4]
    and [gamma = 0], [Xb.dot(theta)] overflows to infinity, [0·inf] is not a
    number, and one iteration returns a [theta] that is not theta0. *)
Lemma zero_gamma_overflow_gives_nan :
  valid_call hf 0 1 2 Xf yf tf 1 2 /\
  exists E,
    observe (run 0 1 2 s_zero 1 hf) = Ok ([[nan]; [nan]], E) /\
    ([[nan]; [nan]] : ndarray float) <> tf.
Proof.
  split.
  { split; try reflexivity; (split; [| done]); repeat constructor. }
  eexists. split; [vm_compute; reflexivity |].
  intros Heq.
  apply (f_equal (fun a : ndarray float => PrimFloat.is_nan (item a 0 0))) in Heq.
  vm_compute in Heq. discriminate Heq.
Qed.

(** ** The shapes of the arrays of an iteration *)

Section Shapes.
Context {S : Type} `{Scalar S}.

Lemma has_shape_tabulate r c (f : nat -> nat -> S) :
  0 < r -> has_shape (tabulate r c f) r c.
Proof.
  intros Hr. unfold has_shape, wf_array, nrows.
  rewrite length_tabulate.
  assert (ncols (tabulate r c f) = c) as Hc.
  { unfold tabulate. destruct r as [| r]; [lia |].
    cbn [seq map ncols]. by rewrite length_map, length_seq. }
  rewrite Hc. split; [| done].
  unfold tabulate. rewrite Forall_map. apply Forall_true. intros i. simpl.
  by rewrite length_map, length_seq.
Qed.

Lemma np_dot_shape (a b : ndarray S) :
  ncols a = nrows b -> 0 < nrows a ->
  exists d, np_dot a b = Ok d /\ has_shape d (nrows a) (ncols b).
Proof.
  intros Hab Ha. unfold np_dot. rewrite decide_True by done.
  eexists. split; [done |].
  unfold has_shape, wf_array, nrows in *. rewrite length_map.
  match goal with |- context [ncols ?d] => assert (ncols d = ncols b) as Hc end.
  { destruct a as [| r a]; [simpl in Ha; lia |]. simpl.
    by rewrite length_map, length_seq. }
  rewrite Hc. split; [| done].
  rewrite Forall_map. apply Forall_true. intros r. simpl.
  by rewrite length_map, length_seq.
Qed.

Lemma np_sub_shape (a b : ndarray S) r c :
  broadcast (nrows a) (nrows b) = Some r -> broadcast (ncols a) (ncols b) = Some c ->
  0 < r ->
  exists d, np_sub a b = Ok d /\ has_shape d r c.
Proof.
  intros Hr Hc Hpos. unfold np_sub. rewrite Hr, Hc.
  eexists. split; [done |]. by apply has_shape_tabulate.
Qed.

Lemma np_scale_shape (k : S) (a : ndarray S) r c :
  has_shape a r c -> has_shape (np_scale k a) r c.
Proof.
  intros (Hwf & Hr & Hc). unfold has_shape, wf_array, np_scale, nrows in *.
  assert (ncols (map (map (s_mul k)) a) = ncols a) as E
    by (destruct a; simpl; by rewrite ?length_map).
  rewrite E, length_map. split; [| done].
  rewrite Forall_map. eapply Forall_impl; [exact Hwf |].
  intros row Hrow. simpl. by rewrite length_map.
Qed.

Lemma has_shape_transpose (a : ndarray S) r c :
  has_shape a r c -> 0 < c -> has_shape (transpose a) c r.
Proof.
  intros (Hwf & Hr & Hc) Hpos. unfold transpose. rewrite Hr, Hc.
  by apply has_shape_tabulate.
Qed.

Lemma broadcast_one_l n : broadcast 1 n = Some n.
Proof.
  unfold broadcast. destruct (decide (1 = n)) as [<- | ?]; [done |].
  by rewrite decide_True.
Qed.

(** The update on a [y] of [C] columns: numpy stretches the column of
    [Xb.dot(theta)], and [theta] comes out with [C] columns. *)
Lemma step_wide gamma (X Y T : ndarray S) N p C :
  has_shape X N p -> has_shape Y N C -> has_shape T p 1 ->
  1 <= N -> 1 <= p ->
  exists T', step (Z.of_nat N) gamma X Y T = Ok T' /\ has_shape T' p C.
Proof.
  intros HsX HsY HsT HN Hp.
  pose proof HsX as (HwfX & HrX & HcX).
  pose proof HsY as (HwfY & HrY & HcY).
  pose proof HsT as (HwfT & HrT & HcT).
  unfold step, gradients_expr, py_div. rewrite decide_False by lia. simpl.
  destruct (np_dot_shape X T) as (A & -> & HsA); [lia | lia |]. simpl.
  destruct HsA as (HwfA & HrA & HcA).
  destruct (np_sub_shape A Y N C) as (R & -> & HsR);
    [rewrite HrA, HrX, HrY; apply broadcast_same
    | rewrite HcA, HcT, HcY; apply broadcast_one_l | lia |]. simpl.
  destruct HsR as (HwfR & HrR & HcR).
  pose proof (has_shape_transpose X N p HsX Hp) as (HwfXt & HrXt & HcXt).
  destruct (np_dot_shape (transpose X) R) as (Gr & -> & HsG); [lia | lia |]. simpl.
  rewrite HrXt, HcR in HsG.
  unfold update_expr.
  set (c := s_div (s_of_int 2) (s_of_int (Z.of_nat N))).
  pose proof (np_scale_shape gamma _ _ _ (np_scale_shape c _ _ _ HsG)) as (HwfG & HrG & HcG).
  apply np_sub_shape; [| | lia].
  - rewrite HrT, HrG. apply broadcast_same.
  - rewrite HcT, HcG. apply broadcast_one_l.
Qed.

End Shapes.

(** ** New array objects *)

Section Fresh.
Context {S : Type} `{Scalar S}.

Lemma changes_only_record ev r i theta : changes_only (S:=S) ev (record ev r i theta).
Proof.
  unfold record.
  repeat (apply changes_only_bind; [| intros ?]);
    auto using changes_only_load, changes_only_lift, changes_only_write.
Qed.

Lemma bind_fresh {A} ev (m : M S A) (f : A -> M S nat) :
  changes_only ev m ->
  (forall a h h' l, f a h = (h', Ok l) -> length h <= l < length h') ->
  forall h h' l, (m ≫= f) h = (h', Ok l) -> length h <= l < length h'.
Proof.
  intros Hm Hf h h' l. unfold_monad.
  destruct (m h) as [h1 [a | e]] eqn:Em; [| done].
  intros Ef. destruct (Hm _ _ _ Em) as [Hlen _].
  specialize (Hf _ _ _ _ Ef). lia.
Qed.

Lemma alloc_fresh (a : ndarray S) h h' l :
  alloc a h = (h', Ok l) -> length h <= l < length h'.
Proof. intros [= <- <-]. rewrite length_app. simpl. lia. Qed.

(** The array [theta] is bound to after an iteration is a new object. *)
Lemma body_fresh N gamma Xb y ev i theta (h h' : store S) l :
  body N gamma Xb y ev i theta h = (h', Ok l) -> length h <= l < length h'.
Proof.
  unfold body.
  repeat (apply (bind_fresh ev);
          [first [apply changes_only_record | apply changes_only_load
                 | apply changes_only_lift | apply changes_only_alloc] | intros ?]).
  intros h0 h1 l0. apply alloc_fresh.
Qed.

Lemma for_range_fresh N gamma Xb y ev its :
  forall theta (h h' : store S) l,
  for_range N gamma Xb y ev its theta h = (h', Ok l) ->
  its <> [] -> length h <= l < length h'.
Proof.
  induction its as [| i its IH]; intros theta h h' l Hfor Hne; [done |].
  cbn [for_range] in Hfor. unfold_monad.
  destruct (body N gamma Xb y ev i theta h) as [h1 [l1 | e]] eqn:Hbody; [| done].
  pose proof (body_fresh _ _ _ _ _ _ _ _ _ _ Hbody) as Hl1.
  destruct its as [| j its].
  - cbn [for_range] in Hfor. injection Hfor as <- <-. done.
  - pose proof (changes_only_body N gamma Xb y ev i theta _ _ _ Hbody) as [Hlen _].
    specialize (IH _ _ _ _ Hfor ltac:(done)). lia.
Qed.

End Fresh.

(** ** Runs and their parts *)

Section Parts.
Context {S : Type} `{Scalar S}.

Lemma observe_ok (out : store S * res (nat * nat)) T E :
  observe out = Ok (T, E) ->
  exists h' theta theta_ev,
    out = (h', Ok (theta, theta_ev)) /\ h' !! theta = Some T /\ h' !! theta_ev = Some E.
Proof.
  destruct out as [h' [[theta theta_ev] | e]]; simpl; [| done].
  destruct (h' !! theta) as [T1 |] eqn:ET; [| done].
  destruct (h' !! theta_ev) as [E1 |] eqn:EE; [| done].
  intros [= -> ->]. by exists h', theta, theta_ev.
Qed.

Lemma theta_k_add gamma (X : ndarray S) y theta0 n m :
  theta_k gamma X y theta0 (n + m) = theta_k gamma X y (theta_k gamma X y theta0 n) m.
Proof. unfold theta_k. rewrite Nat.add_comm. apply Nat.iter_add. Qed.

Lemma iterate_step_ext (N N' : Z) (gamma gamma' : S) (X Y X' Y' : ndarray S) its :
  (forall T, step N gamma X Y T = step N' gamma' X' Y' T) ->
  forall T E, iterate N gamma X Y its T E = iterate N' gamma' X' Y' its T E.
Proof.
  intros Hstep. induction its as [| i its IH]; intros T E; [done |].
  cbn [iterate]. destruct (snapshot E i T) as [E' | e]; [| done].
  cbn [mbind res_bind]. rewrite Hstep.
  destruct (step N' gamma' X' Y' T) as [T' | e]; [| done].
  cbn [mbind res_bind]. apply IH.
Qed.

Lemma tabulate_ext r c (f g : nat -> nat -> S) :
  (forall i j, i < r -> j < c -> f i j = g i j) -> tabulate r c f = tabulate r c g.
Proof.
  intros Hfg. unfold tabulate. apply map_ext_in. intros i Hi. apply in_seq in Hi.
  apply map_ext_in. intros j Hj. apply in_seq in Hj. apply Hfg; lia.
Qed.

Lemma item_replicate n (c : S) i j : i < n -> item (replicate n [c]) i j = item [[c]] 0 j.
Proof.
  intros Hi. unfold item.
  rewrite (nth_lookup_Some _ _ _ [c]); [done |]. by apply lookup_replicate_2.
Qed.

(** A target of a single row against [N] rows: numpy stretches it. *)
Lemma np_sub_stretch (A : ndarray S) (c : S) N :
  nrows A = N -> 1 <= N -> np_sub A [[c]] = np_sub A (replicate N [c]).
Proof.
  intros HA HN. destruct (decide (N = 1)) as [-> | HN1]; [done |].
  unfold np_sub. rewrite HA.
  assert (nrows (replicate N [c]) = N) as -> by apply length_replicate.
  assert (ncols (replicate N [c]) = 1) as -> by (destruct N; [lia | done]).
  change (nrows [[c]]) with 1. change (ncols [[c]]) with 1.
  rewrite broadcast_same.
  assert (broadcast N 1 = Some N) as ->.
  { unfold broadcast. rewrite !decide_False by lia. by rewrite decide_True. }
  destruct (broadcast (ncols A) 1) as [k |]; [| done].
  f_equal. apply tabulate_ext. intros i j Hi Hj.
  f_equal. rewrite (bidx_lt N i) by lia. change (bidx 1 i) with 0.
  by rewrite item_replicate.
Qed.

Lemma step_stretch (gamma : S) (X T : ndarray S) (c : S) :
  step (Z.of_nat (nrows X)) gamma X [[c]] T =
  step (Z.of_nat (nrows X)) gamma X (replicate (nrows X) [c]) T.
Proof.
  unfold step, gradients_expr, py_div.
  destruct (decide (Z.of_nat (nrows X) = 0%Z)) as [| HN]; [done |].
  cbn [mbind res_bind].
  unfold np_dot at 2 4. destruct (decide (ncols X = nrows T)); [| done].
  cbn [mbind res_bind].
  rewrite (np_sub_stretch _ c (nrows X)); [done | | lia].
  unfold nrows. by rewrite length_map.
Qed.

End Parts.

(** ** The generated data *)

Section DataLemmas.
Context {S G : Type} `{Scalar S} `{Generator S G}.

Lemma length_draws (draw : G -> S * G) k g : length (fst (draws draw k g)) = k.
Proof.
  revert g. induction k as [| k IH]; intros g; [done |]. cbn [draws].
  destruct (draw g) as [x g1]. specialize (IH g1).
  destruct (draws draw k g1) as [l g2]. simpl in *. by rewrite IH.
Qed.

(** An array of one column holds successive draws, one per row. *)
Lemma draw_rows_col (draw : G -> S * G) r g :
  draw_rows draw r 1 g = (col (fst (draws draw r g)), snd (draws draw r g)).
Proof.
  revert g. induction r as [| r IH]; intros g; [done |]. cbn [draw_rows draws].
  destruct (draw g) as [x g1]. rewrite (IH g1).
  by destruct (draws draw r g1) as [l g2].
Qed.

Lemma random_array_col (draw : G -> S * G) (N : Z) g :
  (0 <= N)%Z ->
  random_array draw N 1 g =
    (snd (draws draw (Z.to_nat N) g), Returns (col (fst (draws draw (Z.to_nat N) g)))).
Proof.
  intros HN. unfold random_array. rewrite decide_True by lia.
  change (Z.to_nat 1) with 1. by rewrite draw_rows_col.
Qed.

Lemma random_array_negative (draw : G -> S * G) (N : Z) g :
  (N < 0)%Z ->
  random_array draw N 1 g = (g, Raises (Exn (ValueError negative_dimensions))).
Proof. intros HN. unfold random_array. by rewrite decide_False by lia. Qed.

Lemma np_add_scalar_col (c : S) v : np_add_scalar c (col v) = col (map (s_add c) v).
Proof. unfold np_add_scalar, col. by rewrite !map_map. Qed.

(** [u + v] on columns of one length. *)
Lemma np_add_col (u v : list S) n :
  length u = n -> length v = n ->
  np_add (col u) (col v) = Ok (col (zip_with s_add u v)).
Proof.
  intros Hu Hv. unfold np_add, nrows. rewrite !length_col, Hu, Hv, broadcast_same.
  destruct (decide (n = 0)) as [-> | Hn].
  { destruct u, v; simpl in *; lia || done. }
  rewrite !ncols_col by (intros ->; simpl in *; lia).
  rewrite broadcast_same. f_equal. unfold tabulate.
  rewrite <- (zip_with_nth_seq s_add u v n s_zero) by done.
  unfold col at 3. rewrite map_map. apply map_ext_in. intros i Hi.
  apply in_seq in Hi. cbn [map seq]. change (bidx 1 0) with 0.
  rewrite bidx_lt by lia. by rewrite !item_col.
Qed.

(** A column of ones to the left of a column. *)
Lemma np_c_ones_col (v : list S) n :
  length v = n ->
  np_c_ (replicate n (replicate 1 s_one)) (col v) = Returns (map (fun x => [s_one; x]) v).
Proof.
  intros Hv. unfold np_c_, nrows. rewrite length_replicate, length_col.
  rewrite decide_True by done. f_equal. subst n.
  induction v as [| x v IH]; [done |]. simpl in *. by f_equal.
Qed.

Lemma np_c_mismatch (a b : ndarray S) :
  nrows a <> nrows b -> np_c_ a b = Raises ValueError_concatenate.
Proof. intros Hne. unfold np_c_. by rewrite decide_False. Qed.

Lemma has_shape_design (v : list S) n :
  length v = n -> 0 < n -> has_shape (map (fun x => [s_one; x]) v) n 2.
Proof.
  intros Hv Hn. destruct v as [| x v]; [simpl in Hv; lia |].
  split; [| split].
  - unfold wf_array. rewrite Forall_map. by apply Forall_true.
  - unfold nrows. by rewrite length_map.
  - done.
Qed.

Lemma generate_draws (N : Z) (g : G) :
  (0 <= N)%Z ->
  let n := Z.to_nat N in
  let us := fst (draws uniform n g) in
  let g1 := snd (draws uniform n g) in
  let es := fst (draws uniform n g1) in
  let g2 := snd (draws uniform n g1) in
  generate N g =
    (g2, Xb ← np_c_ (replicate 100 (replicate 1 s_one)) (col (x_of us));
         mret {| data_x := col (x_of us); data_eta := col es;
                 data_y := col (y_of (x_of us) es); data_Xb := Xb |}).
Proof.
  intros HN n us g1 es g2. unfold generate, np_random_rand.
  unfold mbind at 1. unfold Draw_bind at 1.
  rewrite random_array_col by done. fold n us g1.
  unfold mbind at 1. unfold Draw_bind at 1.
  rewrite random_array_col by done. fold n es g2.
  rewrite !np_scale_col, np_add_scalar_col.
  rewrite (np_add_col _ _ n)
    by (unfold us, es; rewrite ?length_map; apply length_draws).
  fold (x_of us). fold (y_of (x_of us) es).
  unfold np_ones. rewrite decide_True by lia.
  change (Z.to_nat 100) with 100. change (Z.to_nat 1) with 1.
  unfold mbind, Draw_bind, pure, of_res, mret, Draw_ret.
  unfold outcome_bind, outcome_ret.
  by destruct (np_c_ (replicate 100 (replicate 1 s_one)) (col (x_of us))).
Qed.

End DataLemmas.

(** The generation for [N = 100]. *)
Lemma generate_100 :
  forall (S G : Type) (Sc : Scalar S) (Gen : Generator S G) (g : G),
    let us := fst (draws uniform 100 g) in
    let g1 := snd (draws uniform 100 g) in
    let es := fst (draws uniform 100 g1) in
    let g2 := snd (draws uniform 100 g1) in
    exists d,
      generate 100 g = (g2, Returns d) /\
      data_x d = col (x_of us) /\ data_eta d = col es /\
      data_y d = col (y_of (x_of us) es) /\
      data_Xb d = map (fun x => [s_one; x]) (x_of us) /\
      has_shape (data_Xb d) 100 2 /\ has_shape (data_y d) 100 1.
Proof.
  intros S G Sc Gen g us g1 es g2.
  assert (length (x_of us) = 100) as Hx
    by (unfold x_of, us; by rewrite length_map, length_draws).
  assert (length es = 100) as He by apply length_draws.
  eexists. split.
  { rewrite generate_draws by lia. cbv zeta. change (Z.to_nat 100) with 100.
    fold us g1 es g2. rewrite (np_c_ones_col _ 100) by done. reflexivity. }
  cbn [data_x data_eta data_y data_Xb].
  do 4 (split; [done |]). split.
  - by apply has_shape_design; [| lia].
  - apply has_shape_col; [| lia]. unfold y_of.
    rewrite length_zip_with, !length_map. lia.
Qed.

(** ** The values the cell shows *)

Section ReportLemmas.
Context {S : Type} `{Scalar S}.

Lemma has_shape_two_rows (E : ndarray S) n :
  has_shape E 2 n -> exists r0 r1, E = [r0; r1] /\ length r0 = n /\ length r1 = n.
Proof.
  intros (Hwf & Hr & Hc). destruct E as [| r0 [| r1 [| r2 E]]]; try done.
  exists r0, r1. simpl in Hc. split; [done |]. split; [done |].
  unfold wf_array in Hwf. simpl in Hwf.
  apply Forall_cons in Hwf as [_ Hwf]. apply Forall_cons in Hwf as [Hr1 _]. lia.
Qed.

Lemma py_slice_all {A} (l : list A) (n : Z) :
  Z.of_nat (length l) = n -> py_slice 0 n l = l.
Proof.
  intros Hn. unfold py_slice, slice_bound.
  rewrite decide_False by lia.
  destruct (decide (n < 0)%Z); [lia |].
  replace (Z.to_nat (Z.min (Z.of_nat (length l)) (Z.max 0 0))) with 0 by lia.
  replace (Z.to_nat (Z.min (Z.of_nat (length l)) (Z.max 0 n))) with (length l) by lia.
  by rewrite take_ge.
Qed.

Lemma map_replicate {A B} (f : A -> B) n x : map f (replicate n x) = replicate n (f x).
Proof. induction n as [| n IH]; [done |]. simpl. by rewrite IH. Qed.

Lemma concat_col (v : list S) : concat (col v) = v.
Proof. induction v as [| x v IH]; [done |]. simpl. by rewrite IH. Qed.

(** The rows of the buffer from its columns. *)
Lemma rows_of_trajectory (r0 r1 : list S) n (f : nat -> list S) :
  length r0 = n -> length r1 = n ->
  (forall j, j < n -> trajectory [r0; r1] !! j = Some (take 2 (f j))) ->
  (forall j, j < n -> 2 <= length (f j)) ->
  r0 = map (fun j => nth 0 (f j) s_zero) (seq 0 n) /\
  r1 = map (fun j => nth 1 (f j) s_zero) (seq 0 n).
Proof.
  intros Hr0 Hr1 Htr Hlen.
  assert (forall j, j < n ->
            nth j r0 s_zero = nth 0 (f j) s_zero /\ nth j r1 s_zero = nth 1 (f j) s_zero)
    as Hnth.
  { intros j Hj. specialize (Htr j Hj). specialize (Hlen j Hj).
    rewrite (trajectory_rows r0 r1 n), lookup_map, lookup_seq_lt in Htr by done.
    simpl in Htr. destruct (f j) as [| a [| b t]]; simpl in Hlen; try lia.
    simpl in Htr. by injection Htr as -> ->. }
  split.
  - rewrite <- (map_nth_seq r0 s_zero) at 1. rewrite Hr0.
    apply map_ext_in. intros j Hj. apply in_seq in Hj. apply Hnth. lia.
  - rewrite <- (map_nth_seq r1 s_zero) at 1. rewrite Hr1.
    apply map_ext_in. intros j Hj. apply in_seq in Hj. apply Hnth. lia.
Qed.

End ReportLemmas.

(** ** Further properties of the cell *)

(** X1. The data can only be generated for [N = 100]: the column of ones of
    [Xb] is built with the literal 100.  A negative [N] makes the first
    [np.random.rand(N,1)] raise [ValueError] without a draw; any other
    [N] but 100 makes [np.c_] raise [ValueError], after the draws. *)
Theorem data_generation_needs_N_100 :
  forall (S G : Type) (Sc : Scalar S) (Gen : Generator S G) (N : Z) (g : G),
    ((N < 0)%Z -> generate N g = (g, Raises (Exn (ValueError negative_dimensions)))) /\
    ((0 <= N)%Z -> N <> 100%Z ->
       exists g', generate N g = (g', Raises ValueError_concatenate)).
Proof.
  intros S G Sc Gen N g. split.
  - intros HN. unfold generate, np_random_rand.
    unfold mbind at 1. unfold Draw_bind at 1.
    by rewrite random_array_negative.
  - intros HN Hne. rewrite generate_draws by done. cbv zeta.
    eexists. f_equal. rewrite np_c_mismatch; [done |].
    unfold nrows. rewrite length_replicate, length_col. unfold x_of.
    rewrite length_map, length_draws. lia.
Qed.

Lemma data_generation_needs_N_100_witness :
  generate (S:=Qc) (-1) 0 = (0, Raises (Exn (ValueError negative_dimensions))) /\
  exists g', generate (S:=Qc) 50 0 = (g', Raises ValueError_concatenate).
Proof.
  split.
  - apply (data_generation_needs_N_100 Qc nat _ _ (-1)%Z 0). lia.
  - apply (data_generation_needs_N_100 Qc nat _ _ 50%Z 0); lia.
Defined.

(** X2. For [N = 100] the generation returns, whatever the state of the
    generator: [x], [eta] and [y] have shape (100, 1) and [Xb] has shape
    (100, 2); with [u] the draw number [i] of the first hundred and [e] that
    of the second hundred, row [i] of [x] is [2·u], that of [eta] is [e], that
    of [y] is [(4 + 3·x) + e] and that of [Xb] is [1, x]. *)
Theorem generated_data :
  forall (S G : Type) (Sc : Scalar S) (Gen : Generator S G) (g : G),
    let us := fst (draws uniform 100 g) in
    let es := fst (draws uniform 100 (snd (draws uniform 100 g))) in
    exists g' d,
      generate 100 g = (g', Returns d) /\
      has_shape (data_x d) 100 1 /\ has_shape (data_eta d) 100 1 /\
      has_shape (data_y d) 100 1 /\ has_shape (data_Xb d) 100 2 /\
      forall i u e, us !! i = Some u -> es !! i = Some e ->
        let x := s_mul (s_of_int 2) u in
        data_x d !! i = Some [x] /\
        data_eta d !! i = Some [e] /\
        data_y d !! i = Some [s_add (s_add (s_of_int 4) (s_mul (s_of_int 3) x)) e] /\
        data_Xb d !! i = Some [s_one; x].
Proof.
  intros S G Sc Gen g us es.
  destruct (generate_100 S G Sc Gen g) as (d & Hgen & Hx & He & Hy & HXb & HsXb & HsY).
  fold us es in Hx, He, Hy, HXb.
  assert (length us = 100) as Hlu by apply length_draws.
  assert (length es = 100) as Hle by apply length_draws.
  eexists _, d. split; [exact Hgen |].
  split. { rewrite Hx. apply has_shape_col; [| lia]. unfold x_of. by rewrite length_map. }
  split. { rewrite He. by apply has_shape_col; [| lia]. }
  do 2 (split; [done |]).
  intros i u e Hu Hev x.
  rewrite Hx, He, Hy, HXb. unfold x_of, y_of.
  rewrite !col_lookup, !lookup_map, lookup_zip_with, !lookup_map, Hu, Hev. done.
Qed.

(** X4. The loop runs on the data the cell generates, for every state of the
    generator, every step size and every [n_iterations >= 0]: the initial
    [theta] is the column of the first two draws of [randn] after
    [seed(0)], whatever was drawn before, and in every store in which the
    names refer to the generated arrays the call returns [theta] after
    [n_iterations] closed-form steps and the trajectory of the iterates. *)
Theorem loop_runs_on_generated_data :
  forall (S G : Type) (Sc : Scalar S) (Gen : Generator S G) (g : G)
         (gamma : S) (n : Z),
    (0 <= n)%Z ->
    exists g1 d g2 T0,
      generate 100 g = (g1, Returns d) /\
      initial_theta g1 = (g2, Returns T0) /\
      T0 = col (fst (draws normal 2 (seed 0))) /\
      forall (h : store S) (Xb y theta : nat),
        h !! Xb = Some (data_Xb d) -> h !! y = Some (data_y d) ->
        h !! theta = Some T0 ->
        exists E,
          observe (run Xb y theta gamma n h) =
            Ok (col (theta_k gamma (data_Xb d) (vec (data_y d)) (vec T0) (Z.to_nat n)), E) /\
          has_shape E 2 (Z.to_nat n) /\
          forall j, j < Z.to_nat n ->
            trajectory E !! j =
              Some (theta_k gamma (data_Xb d) (vec (data_y d)) (vec T0) j).
Proof.
  intros S G Sc Gen g gamma n Hn.
  destruct (generate_100 S G Sc Gen g) as (d & Hgen & _ & _ & _ & _ & HsXb & HsY).
  set (tv := fst (draws normal 2 (seed 0))).
  assert (length tv = 2) as Htv by apply length_draws.
  eexists _, d, _, (col tv). split; [exact Hgen |]. split.
  { unfold initial_theta, np_random_seed, np_random_randn.
    unfold mbind, Draw_bind. by rewrite random_array_col by lia. }
  split; [done |].
  intros h Xb y theta HX HY HT.
  assert (valid_call h Xb y theta (data_Xb d) (data_y d) (col tv) 100 2) as Hvc.
  { split; try done. by apply has_shape_col; [| lia]. }
  destruct (run_ok h Xb y theta _ _ _ 100 2 gamma n Hvc ltac:(lia) Hn)
    as (E & Hrun & HsE & _ & Htr).
  exists E. split; [done |]. split; [done |].
  intros j Hj. rewrite (Htr j Hj). f_equal.
  destruct HsXb as (_ & _ & HcX).
  apply take_ge. rewrite length_theta_k; [lia | rewrite vec_col; lia].
Qed.

Lemma loop_runs_on_generated_data_witness :
  exists (g1 : nat) (d : dataset (S:=Qc)) (g2 : nat) (T0 : ndarray Qc),
    generate 100 7 = (g1, Returns d) /\
    initial_theta g1 = (g2, Returns T0) /\
    T0 = col (fst (draws normal 2 (seed 0))) /\
    exists E,
      observe (run 0 1 2 (qc 1 10) 3 [data_Xb d; data_y d; T0]) =
        Ok (col (theta_k (qc 1 10) (data_Xb d) (vec (data_y d)) (vec T0) (Z.to_nat 3)), E) /\
      has_shape E 2 (Z.to_nat 3) /\
      forall j, j < Z.to_nat 3 ->
        trajectory E !! j =
          Some (theta_k (qc 1 10) (data_Xb d) (vec (data_y d)) (vec T0) j).
Proof.
  destruct (loop_runs_on_generated_data Qc nat _ _ 7 (qc 1 10) 3 ltac:(lia))
    as (g1 & d & g2 & T0 & Hgen & Hth & HT0 & Hrun).
  exists g1, d, g2, T0. do 3 (split; [done |]).
  apply (Hrun [data_Xb d; data_y d; T0] 0 1 2); reflexivity.
Defined.

(** X5. A run can be resumed: on well-shaped inputs with at least two
    parameters, [m] more iterations from the [theta] that [n] iterations
    returned give the [theta] of [n + m] iterations, and the trajectory of
    [n + m] iterations is the trajectory of the first run followed by that of
    the second. *)
Theorem run_resumes :
  forall (S : Type) (Sc : Scalar S) (h : store S) (Xb y theta0 : nat)
         (X Y T0 : ndarray S) (N p : nat) (gamma : S) (n m : Z),
    valid_call h Xb y theta0 X Y T0 N p -> 2 <= p -> (0 <= n)%Z -> (0 <= m)%Z ->
    exists (h1 : store S) (theta1 ev1 : nat) (E1 T2 E2 E : ndarray S),
      run Xb y theta0 gamma n h = (h1, Ok (theta1, ev1)) /\
      h1 !! ev1 = Some E1 /\
      observe (run Xb y theta1 gamma m h1) = Ok (T2, E2) /\
      observe (run Xb y theta0 gamma (n + m) h) = Ok (T2, E) /\
      trajectory E = trajectory E1 ++ trajectory E2.
Proof.
  intros S Sc h Xb y theta0 X Y T0 N p gamma n m Hvc Hp Hn Hm.
  destruct (run_ok h Xb y theta0 X Y T0 N p gamma n Hvc Hp Hn)
    as (E1 & Hrun1 & HsE1 & Hlen1 & Htr1).
  destruct (observe_ok _ _ _ Hrun1) as (h1 & theta1 & ev1 & Hout & Hth1 & Hev1).
  destruct (run_ok h Xb y theta0 X Y T0 N p gamma (n + m) Hvc Hp ltac:(lia))
    as (E & Hrun & HsE & Hlen & Htr).
  pose proof Hvc as [HX HY HT HsX HsY HsT].
  destruct (has_shape_vec _ _ HsT) as [HlenT _].
  pose proof HsX as (_ & _ & HcX).
  set (tn := theta_k gamma X (vec Y) (vec T0) (Z.to_nat n)) in *.
  assert (length tn = p) as Hltn by (unfold tn; rewrite length_theta_k; lia).
  destruct (run_preserves _ _ _ _ _ _ _ _ Hout) as [_ Hfr].
  assert (valid_call h1 Xb y theta1 X Y (col tn) N p) as Hvc1.
  { split; try done.
    - rewrite Hfr by (by eapply lookup_lt_Some). done.
    - rewrite Hfr by (by eapply lookup_lt_Some). done.
    - apply has_shape_col; [done | lia]. }
  destruct (run_ok h1 Xb y theta1 X Y (col tn) N p gamma m Hvc1 Hp Hm)
    as (E2 & Hrun2 & HsE2 & Hlen2 & Htr2).
  rewrite vec_col in Hrun2, Htr2.
  exists h1, theta1, ev1, E1, (col (theta_k gamma X (vec Y) tn (Z.to_nat m))), E2, E.
  split; [done |]. split; [done |]. split; [done |].
  assert (Z.to_nat (n + m) = Z.to_nat n + Z.to_nat m) as Enm by lia.
  split.
  { rewrite Hrun, Enm. unfold tn. by rewrite theta_k_add. }
  apply list_eq. intros j.
  destruct (decide (j < Z.to_nat n)) as [Hj | Hj].
  - rewrite lookup_app_l by lia. rewrite Htr by lia. by rewrite Htr1.
  - rewrite lookup_app_r by lia. rewrite Hlen1.
    destruct (decide (j < Z.to_nat n + Z.to_nat m)) as [Hj' | Hj'].
    + rewrite Htr by lia. rewrite Htr2 by lia.
      unfold tn. rewrite <- theta_k_add. do 3 f_equal. lia.
    + rewrite !lookup_ge_None_2 by lia. done.
Qed.

Lemma run_resumes_witness :
  exists (h1 : store Qc) (theta1 ev1 : nat) (E1 T2 E2 E : ndarray Qc),
    run 0 1 2 (qc 1 10) 1 h3 = (h1, Ok (theta1, ev1)) /\
    h1 !! ev1 = Some E1 /\
    observe (run 0 1 theta1 (qc 1 10) 2 h1) = Ok (T2, E2) /\
    observe (run 0 1 2 (qc 1 10) (1 + 2) h3) = Ok (T2, E) /\
    trajectory E = trajectory E1 ++ trajectory E2.
Proof.
  apply (run_resumes Qc _ h3 0 1 2 X3 y3 t3 3 2 (qc 1 10) 1 2 valid_call_h3); lia.
Defined.

(** X6. After at least one iteration the returned [theta] and [theta_ev] are
    array objects that did not exist before the call, distinct from each
    other, and every array that existed before the call, theta0 included, is
    unchanged: the update rebinds [theta], it does not write into it. *)
Theorem returned_theta_is_a_new_array :
  forall (S : Type) (Sc : Scalar S) (h h' : store S) (Xb y theta0 : nat)
         (gamma : S) (n : Z) (theta theta_ev : nat),
    run Xb y theta0 gamma n h = (h', Ok (theta, theta_ev)) -> (1 <= n)%Z ->
    theta_ev = length h /\
    length h < theta < length h' /\
    forall l, l < length h -> h' !! l = h !! l.
Proof.
  intros S Sc h h' Xb y theta0 gamma n theta theta_ev Hrun Hn.
  destruct (run_preserves _ _ _ _ _ _ _ _ Hrun) as [_ Hfr].
  revert Hrun. unfold run, load, gradient_descent, lift, alloc. unfold_monad.
  destruct (h !! Xb) as [X |]; [| done].
  destruct (np_ones 2 n) as [E | e]; [| done].
  destruct (for_range (Z.of_nat (nrows X)) gamma Xb y (length h) (range n) theta0 (h ++ [E]))
    as [h1 [l |]] eqn:Hfor; [| done].
  intros [= <- <- <-].
  assert (range n <> []) as Hne.
  { unfold range. destruct (Z.to_nat n) eqn:En; [lia | done]. }
  pose proof (for_range_fresh _ _ _ _ _ _ _ _ _ _ Hfor Hne) as Hl.
  rewrite length_app in Hl. simpl in Hl.
  split; [done |]. split; [lia | done].
Qed.

Lemma returned_theta_is_a_new_array_witness :
  3 = length h3 /\
  length h3 < 7 < length (fst (run 0 1 2 (qc 1 10) 2 h3)) /\
  forall l, l < length h3 -> fst (run 0 1 2 (qc 1 10) 2 h3) !! l = h3 !! l.
Proof.
  apply (returned_theta_is_a_new_array Qc _ h3 (fst (run 0 1 2 (qc 1 10) 2 h3))
           0 1 2 (qc 1 10) 2 7 3).
  - rewrite (surjective_pairing (run 0 1 2 (qc 1 10) 2 h3)) at 1. reflexivity.
  - lia.
Defined.

(** X7. With [N = 0] and at least one iteration the cell raises
    [ZeroDivisionError]: [2/N] is evaluated before any product, whatever the
    shapes of X and y.  A design matrix without rows does the same through
    [run]. *)
Theorem zero_N_raises_zero_division :
  forall (S : Type) (Sc : Scalar S) (h : store S) (Xb y theta0 : nat)
         (X Y T0 : ndarray S) (q : nat) (gamma : S) (n : Z),
    h !! Xb = Some X -> h !! y = Some Y -> h !! theta0 = Some T0 ->
    has_shape T0 q 1 -> 2 <= q -> (1 <= n)%Z ->
    observe (gradient_descent 0 n gamma Xb y theta0 h) = Raise ZeroDivisionError /\
    (nrows X = 0 -> observe (run Xb y theta0 gamma n h) = Raise ZeroDivisionError).
Proof.
  intros S Sc h Xb y theta0 X Y T0 q gamma n HX HY HT HsT Hq Hn.
  assert (cell_value 0 n gamma X Y T0 = Raise ZeroDivisionError) as Hcell.
  { unfold cell_value, np_ones. rewrite decide_True by lia.
    change (Z.to_nat 2) with 2. unfold range.
    destruct (snapshot_fresh T0 q (Z.to_nat n) HsT Hq ltac:(lia)) as (E' & Hsnap & _).
    destruct (Z.to_nat n) as [| m] eqn:En; [lia |].
    cbn [mbind res_bind seq iterate]. rewrite Hsnap. done. }
  split.
  - by rewrite (gradient_descent_value _ _ _ _ _ _ _ _ _ _ HX HY HT).
  - intros HN. rewrite (run_value _ _ _ _ _ _ _ _ _ HX HY HT). by rewrite HN.
Qed.

Lemma zero_N_raises_zero_division_witness :
  observe (gradient_descent 0 1 (qc 1 10) 0 1 2 h0) = Raise ZeroDivisionError /\
  observe (run 0 1 2 (qc 1 10) 1 h0) = Raise ZeroDivisionError.
Proof.
  destruct (zero_N_raises_zero_division Qc _ h0 0 1 2 [] y3 t3 2 (qc 1 10) 1)
    as [Hgd Hrun]; try reflexivity; try lia.
  - split; [| done]. repeat constructor.
  - split; [exact Hgd | by apply Hrun].
Defined.

(** X8. A [theta0] with fewer than two rows makes the first iteration raise
    [IndexError], at [theta[0]] or [theta[1]]. *)
Theorem short_theta_raises_index_error :
  forall (S : Type) (Sc : Scalar S) (h : store S) (Xb y theta0 : nat)
         (X Y T0 : ndarray S) (gamma : S) (n : Z),
    h !! Xb = Some X -> h !! y = Some Y -> h !! theta0 = Some T0 ->
    (1 <= n)%Z -> T0 = [] \/ has_shape T0 1 1 ->
    observe (run Xb y theta0 gamma n h) = Raise IndexError.
Proof.
  intros S Sc h Xb y theta0 X Y T0 gamma n HX HY HT Hn Hshort.
  rewrite (run_value _ _ _ _ _ _ _ _ _ HX HY HT).
  unfold cell_value, np_ones. rewrite decide_True by lia.
  change (Z.to_nat 2) with 2. unfold range.
  destruct (Z.to_nat n) as [| m] eqn:En; [lia |].
  cbn [mbind res_bind seq iterate replicate].
  destruct Hshort as [-> | (Hwf & Hr & Hc)]; [done |].
  destruct T0 as [| [| a [| b row]] [| r T0]]; try done.
Qed.

Lemma short_theta_raises_index_error_witness :
  observe (run 0 1 2 (qc 1 10) 1 h1) = Raise IndexError.
Proof.
  apply (short_theta_raises_index_error Qc _ h1 0 1 2 X1 y1 t1 (qc 1 10) 1);
    try reflexivity; try lia.
  right. split; [| done]. repeat constructor.
Defined.

(** X9. A [theta0] of two or more columns makes the first iteration raise
    [ValueError] at the first [itemset], which is given a row of several
    elements: the trajectory buffer is still the array of ones, and nothing
    else has changed. *)
Theorem wide_theta_raises_before_any_write :
  forall (S : Type) (Sc : Scalar S) (h : store S) (Xb y theta0 : nat)
         (X Y T0 : ndarray S) (q c : nat) (gamma : S) (n : Z),
    h !! Xb = Some X -> h !! y = Some Y -> h !! theta0 = Some T0 ->
    has_shape T0 q c -> 1 <= q -> 2 <= c -> (1 <= n)%Z ->
    run Xb y theta0 gamma n h =
      (h ++ [replicate 2 (replicate (Z.to_nat n) s_one)],
       Raise (ValueError sequence_as_element)).
Proof.
  intros S Sc h Xb y theta0 X Y T0 q c gamma n HX HY HT (HwfT & HrT & HcT) Hq Hc Hn.
  unfold run. rewrite (bind_load _ _ _ _ HX). unfold gradient_descent.
  rewrite bind_lift. unfold np_ones. rewrite decide_True by lia.
  change (Z.to_nat 2) with 2.
  set (E := replicate 2 (replicate (Z.to_nat n) s_one)).
  rewrite (bind_ok _ _ h (h ++ [E]) (length h)) by done.
  pose proof (lookup_lt_Some _ _ _ HT) as Hlt.
  unfold range. destruct (Z.to_nat n) as [| m] eqn:En; [lia |].
  cbn [seq for_range].
  apply bind_raise. apply bind_raise. unfold body. apply bind_raise.
  destruct T0 as [| row T0]; [simpl in HrT; lia |].
  simpl in HcT.
  apply (record_raise_itemset _ _ _ _ _ (row :: T0) E row).
  - by apply lookup_app_l_Some.
  - rewrite lookup_app_r by lia. by rewrite Nat.sub_diag.
  - done.
  - unfold itemset. rewrite decide_True by (unfold E; simpl; rewrite length_replicate; lia).
    destruct row as [| a [| b row]]; simpl in HcT; try lia; done.
Qed.

Lemma wide_theta_raises_before_any_write_witness :
  run 0 1 2 (qc 1 10) 3 h22 =
    (h22 ++ [replicate 2 (replicate (Z.to_nat 3) s_one)],
     Raise (ValueError sequence_as_element)).
Proof.
  apply (wide_theta_raises_before_any_write Qc _ h22 0 1 2 X3 y3 t22 2 2 (qc 1 10) 3);
    try reflexivity; try lia.
  split; [| done]. repeat constructor.
Defined.

(** X10. On inputs with X of shape (N, p), [N >= 1], and theta0 of shape
    (p, 1) with at least two parameters, targets of [C >= 2] columns and
    [N] rows are not rejected: numpy stretches the column [Xb.dot(theta)]
    against them, one iteration returns a [theta] of shape (p, C), and a
    call with two or more iterations raises [ValueError] at the first
    [itemset] of its second iteration. *)
Theorem wide_target_passes_one_iteration :
  forall (S : Type) (Sc : Scalar S) (h : store S) (Xb y theta0 : nat)
         (X Y T0 : ndarray S) (N p C : nat) (gamma : S),
    h !! Xb = Some X -> h !! y = Some Y -> h !! theta0 = Some T0 ->
    has_shape X N p -> has_shape Y N C -> has_shape T0 p 1 ->
    1 <= N -> 2 <= p -> 2 <= C ->
    (exists T' E, observe (run Xb y theta0 gamma 1 h) = Ok (T', E) /\ has_shape T' p C) /\
    forall n, (2 <= n)%Z ->
      observe (run Xb y theta0 gamma n h) = Raise (ValueError sequence_as_element).
Proof.
  intros S Sc h Xb y theta0 X Y T0 N p C gamma HX HY HT HsX HsY HsT HN Hp HC.
  destruct (step_wide gamma X Y T0 N p C) as (T' & Hstep & HsT'); try done; [lia |].
  pose proof HsX as (_ & HrX & _).
  destruct (has_shape_vec _ _ HsT) as [HlenT _].
  pose proof (col_vec T0 p HsT) as ET.
  destruct (vec T0) as [| a [| b tv]] eqn:Etv; simpl in HlenT; try lia.
  assert (forall m, 1 <= m ->
            snapshot (replicate 2 (replicate m s_one)) 0 T0 =
            Ok [<[0 := a]> (replicate m s_one); <[0 := b]> (replicate m s_one)]) as Hsnap.
  { intros m Hm. rewrite <- ET. cbn [replicate].
    apply snapshot_rows; try done. rewrite length_replicate. lia. }
  split.
  - exists T'. eexists. split; [| done].
    rewrite (run_value _ _ _ _ _ _ _ _ _ HX HY HT), HrX.
    unfold cell_value, np_ones. rewrite decide_True by lia.
    change (Z.to_nat 2) with 2. change (range 1) with [0].
    change (Z.to_nat 1) with 1.
    cbn [mbind res_bind iterate].
    rewrite (Hsnap 1) by lia. cbn [mbind res_bind]. rewrite Hstep. done.
  - intros n Hn.
    rewrite (run_value _ _ _ _ _ _ _ _ _ HX HY HT), HrX.
    unfold cell_value, np_ones. rewrite decide_True by lia.
    change (Z.to_nat 2) with 2. unfold range.
    destruct (Z.to_nat n) as [| [| m]] eqn:En; try lia.
    cbn [mbind res_bind seq iterate].
    rewrite (Hsnap (Datatypes.S (Datatypes.S m))) by lia. cbn [mbind res_bind].
    rewrite Hstep. cbn [mbind res_bind].
    destruct HsT' as (HwfT' & HrT' & HcT').
    destruct T' as [| row T']; [simpl in HrT'; lia |]. simpl in HcT'.
    unfold snapshot, getitem, itemset. cbn [lookup list_lookup mbind res_bind].
    rewrite decide_True by (simpl; rewrite ?length_insert, ?length_replicate; lia).
    destruct row as [| x [| x' row]]; simpl in HcT'; try lia. done.
Qed.

Lemma wide_target_passes_one_iteration_witness :
  (exists T' E, observe (run 0 1 2 (qc 1 10) 1 h32) = Ok (T', E) /\ has_shape T' 2 2) /\
  forall n, (2 <= n)%Z ->
    observe (run 0 1 2 (qc 1 10) n h32) = Raise (ValueError sequence_as_element).
Proof.
  apply (wide_target_passes_one_iteration Qc _ h32 0 1 2 X3 y32 t3 3 2 2 (qc 1 10));
    try reflexivity; try lia;
    split; try done; repeat constructor.
Defined.

(** X11. A [y] of a single row and column is used for every sample: the
    call gives what it gives on the same target repeated once per row of X. *)
Theorem single_target_is_stretched :
  forall (S : Type) (Sc : Scalar S) (h : store S) (Xb y y' theta0 : nat)
         (X T0 : ndarray S) (c gamma : S) (n : Z),
    h !! Xb = Some X -> h !! theta0 = Some T0 ->
    h !! y = Some [[c]] -> h !! y' = Some (replicate (nrows X) [c]) ->
    observe (run Xb y theta0 gamma n h) = observe (run Xb y' theta0 gamma n h).
Proof.
  intros S Sc h Xb y y' theta0 X T0 c gamma n HX HT HY HY'.
  rewrite (run_value _ _ _ _ _ _ _ _ _ HX HY HT).
  rewrite (run_value _ _ _ _ _ _ _ _ _ HX HY' HT).
  unfold cell_value. destruct (np_ones 2 n) as [E | e]; [| done].
  cbn [mbind res_bind]. apply iterate_step_ext. intros T. apply step_stretch.
Qed.

Lemma single_target_is_stretched_witness :
  observe (run 0 1 3 (qc 1 10) 2 hs) = observe (run 0 2 3 (qc 1 10) 2 hs).
Proof.
  apply (single_target_is_stretched Qc _ hs 0 1 2 3 X3 t3 (qc 2 1) (qc 1 10) 2);
    reflexivity.
Defined.

(** X16. After a run of [n_iterations >= 1] on well-shaped inputs with at
    least two parameters, the six calls of [plt.plot] are given: the first and
    the second entry of [theta] before each iteration against
    [range(n_iterations)], two columns of [n_iterations] entries [1·4] and
    [1·3], and the two first entries of theta0 at 0.  In each call the x and
    the y data have the same number of points. *)
Theorem plotted_series_are_the_iterates :
  forall (S : Type) (Sc : Scalar S) (h : store S) (Xb y theta0 : nat)
         (X Y T0 : ndarray S) (N p : nat) (gamma : S) (n : Z),
    valid_call h Xb y theta0 X Y T0 N p -> 2 <= p -> (1 <= n)%Z ->
    let theta := theta_k gamma X (vec Y) (vec T0) in
    let t := range n in
    let fig :=
      [(a_range t, an_array1 (map (fun k => nth 0 (theta k) s_zero) t));
       (a_range t, an_array1 (map (fun k => nth 1 (theta k) s_zero) t));
       (a_range t, an_array2 (replicate (Z.to_nat n) [s_mul s_one (s_of_int 4)]));
       (a_range t, an_array2 (replicate (Z.to_nat n) [s_mul s_one (s_of_int 3)]));
       (an_int 0, an_element (nth 0 (vec T0) s_zero));
       (an_int 0, an_element (nth 1 (vec T0) s_zero))] in
    exists T E,
      observe (run Xb y theta0 gamma n h) = Ok (T, E) /\
      figure_data n E = Ok fig /\
      Forall (fun c => points (fst c) = points (snd c)) fig.
Proof.
  intros S Sc h Xb y theta0 X Y T0 N p gamma n Hvc Hp Hn theta t fig.
  destruct (run_ok h Xb y theta0 X Y T0 N p gamma n Hvc Hp ltac:(lia))
    as (E & Hrun & HsE & _ & Htr).
  fold theta in Hrun, Htr.
  destruct (has_shape_two_rows E _ HsE) as (r0 & r1 & -> & Hl0 & Hl1).
  pose proof Hvc as [_ _ _ HsX _ HsT].
  destruct (has_shape_vec _ _ HsT) as [HlenT _].
  pose proof HsX as (_ & _ & HcX).
  assert (forall j, length (theta j) = p) as Hlen.
  { intros j. unfold theta. rewrite length_theta_k; lia. }
  destruct (rows_of_trajectory r0 r1 (Z.to_nat n) theta Hl0 Hl1 Htr) as [Er0 Er1].
  { intros j _. rewrite Hlen. lia. }
  fold (range n) in Er0, Er1. fold t in Er0, Er1.
  eexists _, _. split; [exact Hrun |]. split.
  - unfold figure_data, getitem_row_slice, getitem.
    cbn [lookup list_lookup mbind res_bind mret res_ret].
    rewrite !py_slice_all by lia.
    unfold np_ones. rewrite decide_True by lia. cbn [mbind res_bind].
    unfold getitem2. rewrite !decide_True by (simpl; lia). cbn [mbind res_bind].
    unfold fig. change (Z.to_nat 1) with 1. cbn [replicate].
    unfold np_dot_scalar. rewrite !map_replicate. cbn [map].
    assert (item [r0; r1] 0 0 = nth 0 (vec T0) s_zero) as ->.
    { unfold item. simpl. rewrite Er0. unfold t, range.
      destruct (Z.to_nat n) eqn:En; [lia |]. done. }
    assert (item [r0; r1] 1 0 = nth 1 (vec T0) s_zero) as ->.
    { unfold item. simpl. rewrite Er1. unfold t, range.
      destruct (Z.to_nat n) eqn:En; [lia |]. done. }
    by rewrite <- Er0, <- Er1.
  - unfold fig, t, range.
    repeat (constructor;
            [cbn [fst snd points]; unfold nrows;
             by rewrite ?length_map, ?length_seq, ?length_replicate |]).
    constructor.
Qed.

Lemma plotted_series_are_the_iterates_witness :
  let theta := theta_k (qc 1 10) X3 (vec y3) (vec t3) in
  let t := range 2 in
  let fig :=
    [(a_range t, an_array1 (map (fun k => nth 0 (theta k) s_zero) t));
     (a_range t, an_array1 (map (fun k => nth 1 (theta k) s_zero) t));
     (a_range t, an_array2 (replicate (Z.to_nat 2) [s_mul s_one (s_of_int 4)]));
     (a_range t, an_array2 (replicate (Z.to_nat 2) [s_mul s_one (s_of_int 3)]));
     (an_int 0, an_element (nth 0 (vec t3) s_zero));
     (an_int 0, an_element (nth 1 (vec t3) s_zero))] in
  exists T E,
    observe (run 0 1 2 (qc 1 10) 2 h3) = Ok (T, E) /\
    figure_data 2 E = Ok fig /\
    Forall (fun c => points (fst c) = points (snd c)) fig.
Proof.
  apply (plotted_series_are_the_iterates Qc _ h3 0 1 2 X3 y3 t3 3 2 (qc 1 10) 2
           valid_call_h3); lia.
Defined.

(** X17. With [n_iterations = 0] the loop returns, but the statements after
    it raise [IndexError]: the buffer has no column, so [theta_ev[0,0]] of the
    fifth [plt.plot] and [theta_ev[0:2,0]] of the first [print] are out of
    bounds. *)
Theorem zero_iterations_cannot_be_reported :
  forall (S : Type) (Sc : Scalar S) (h : store S) (Xb y theta0 : nat)
         (X Y T0 : ndarray S) (gamma : S),
    h !! Xb = Some X -> h !! y = Some Y -> h !! theta0 = Some T0 ->
    exists E,
      observe (run Xb y theta0 gamma 0 h) = Ok (T0, E) /\
      figure_data 0 E = Raise IndexError /\
      initial_guess E = Raise IndexError.
Proof.
  intros S Sc h Xb y theta0 X Y T0 gamma HX HY HT.
  exists [[]; []]. split; [| by split].
  by rewrite (run_value _ _ _ _ _ _ _ _ _ HX HY HT).
Qed.

Lemma zero_iterations_cannot_be_reported_witness :
  exists E,
    observe (run 0 1 2 (qc 1 10) 0 h3) = Ok (t3, E) /\
    figure_data 0 E = Raise IndexError /\
    initial_guess E = Raise IndexError.
Proof.
  apply (zero_iterations_cannot_be_reported Qc _ h3 0 1 2 X3 y3 t3 (qc 1 10));
    reflexivity.
Defined.

(** X18. After a run of [n_iterations >= 1] on well-shaped inputs with at
    least two parameters, the initial guess the cell prints holds the first two
    entries of theta0.  With two parameters the final estimate it prints is
    [theta] after [n_iterations] closed-form steps; with more, [reshape(1,2)]
    raises [ValueError]. *)
Theorem printed_guess_and_estimate :
  forall (S : Type) (Sc : Scalar S) (h : store S) (Xb y theta0 : nat)
         (X Y T0 : ndarray S) (N p : nat) (gamma : S) (n : Z),
    valid_call h Xb y theta0 X Y T0 N p -> 2 <= p -> (1 <= n)%Z ->
    exists T E,
      observe (run Xb y theta0 gamma n h) = Ok (T, E) /\
      initial_guess E = Ok (take 2 (vec T0)) /\
      (p = 2 ->
         final_estimate T = Returns (theta_k gamma X (vec Y) (vec T0) (Z.to_nat n))) /\
      (p <> 2 -> final_estimate T = Raises ValueError_reshape).
Proof.
  intros S Sc h Xb y theta0 X Y T0 N p gamma n Hvc Hp Hn.
  destruct (run_ok h Xb y theta0 X Y T0 N p gamma n Hvc Hp ltac:(lia))
    as (E & Hrun & HsE & _ & Htr).
  destruct (has_shape_two_rows E _ HsE) as (r0 & r1 & -> & Hl0 & Hl1).
  pose proof Hvc as [_ _ _ HsX _ HsT].
  destruct (has_shape_vec _ _ HsT) as [HlenT _].
  pose proof HsX as (_ & _ & HcX).
  set (tn := theta_k gamma X (vec Y) (vec T0) (Z.to_nat n)) in *.
  assert (length tn = p) as Hltn by (unfold tn; rewrite length_theta_k; lia).
  eexists _, _. split; [exact Hrun |]. split; [| split].
  - unfold initial_guess, getitem_slice_col.
    rewrite decide_True by (simpl; lia).
    rewrite (py_slice_all [r0; r1] 2) by done.
    specialize (Htr 0 ltac:(lia)).
    rewrite (trajectory_rows r0 r1 (Z.to_nat n)) in Htr by done.
    destruct (Z.to_nat n) as [| m] eqn:En; [lia |]. simpl in Htr.
    injection Htr as Htr. by rewrite <- Htr.
  - intros ->. unfold final_estimate, np_reshape. rewrite concat_col.
    rewrite decide_True by lia.
    destruct tn as [| a [| b [| c tn]]]; simpl in Hltn; try lia. done.
  - intros Hne. unfold final_estimate, np_reshape. rewrite concat_col.
    by rewrite decide_False by lia.
Qed.

Lemma printed_guess_and_estimate_witness :
  exists T E,
    observe (run 0 1 2 (qc 1 10) 2 h3) = Ok (T, E) /\
    initial_guess E = Ok (take 2 (vec t3)) /\
    final_estimate T = Returns (theta_k (qc 1 10) X3 (vec y3) (vec t3) (Z.to_nat 2)).
Proof.
  destruct (printed_guess_and_estimate Qc _ h3 0 1 2 X3 y3 t3 3 2 (qc 1 10) 2
              valid_call_h3 ltac:(lia) ltac:(lia)) as (T & E & Hrun & Hguess & Hest & _).
  exists T, E. split; [done |]. split; [done |]. by apply Hest.
Defined.
